(** * AyeAuto: fare engine, night window, tariff store and distance tracker

    A shallow embedding of the TypeScript hooks [useFareCalculator] and
    [useLocationTracking] and of the settings screen's save path.

    Number model.  A JavaScript [number] is an IEEE-754 double, and the
    fare engine and the tariff editor are embedded twice.

    - Module [Binary64] is the code as it computes: doubles with their two
      zeros, two infinities and [NaN], every operation rounded to the
      nearest double.  It carries what depends on the rounding or on the
      infinities: the value of a fare, what the editor writes to the store
      and what is read back, and the outcome of a write that fails.
    - Modules [FareCalculator], [SettingsScreen], [TripPlanner] and
      [SettingsPreview] are the same code over exact rationals extended with
      [NaN]: finite values, no rounding error, a store whose writes go
      through.  They carry the properties of order, sign and control flow,
      which rounding to nearest preserves.

    The tracker evaluates trigonometric functions, so its numbers are real
    numbers, again with [NaN] where the source can produce one; its
    properties are those of the filter and of the running total around the
    computed distance, not of the digits of that distance. *)

From Stdlib Require Import QArith Qround Qminmax ZArith Bool List.
From Stdlib Require Import Reals Machin Psatz Ascii SpecFloat.
From stdpp Require Import base strings gmap pretty.
Import ListNotations.

(** A JavaScript number over a carrier of finite values. *)
Inductive number (A : Type) : Type :=
| Num (a : A)
| NaN.
Arguments Num {A} a.
Arguments NaN {A}.

(** ** hooks/useFareCalculator.ts *)
Module FareCalculator.
Open Scope Q_scope.

Abbreviation jsnum := (number Q).

(** [a <= b]: false as soon as one side is [NaN]. *)
Definition js_le (a b : jsnum) : bool :=
  match a, b with
  | Num x, Num y => Qle_bool x y
  | _, _ => false
  end.

Definition js_add (a b : jsnum) : jsnum :=
  match a, b with
  | Num x, Num y => Num (x + y)
  | _, _ => NaN
  end.

Definition js_sub (a b : jsnum) : jsnum :=
  match a, b with
  | Num x, Num y => Num (x - y)
  | _, _ => NaN
  end.

Definition js_mul (a b : jsnum) : jsnum :=
  match a, b with
  | Num x, Num y => Num (x * y)
  | _, _ => NaN
  end.

(** [Math.round]: the integer nearest to [x], a tie going to the larger
    integer, that is [floor (x + 0.5)]; [NaN] stays [NaN]. *)
Definition Math_round (x : jsnum) : jsnum :=
  match x with
  | Num q => Num (inject_Z (Qfloor (q + 0.5)))
  | NaN => NaN
  end.

Definition DEFAULT_MIN_CHARGE : Q := 30.
Definition DEFAULT_BASE_DISTANCE : Q := 1.5.
Definition DEFAULT_RATE_PER_KM : Q := 15.
Definition NIGHT_SURCHARGE : Q := 0.5.

(** [interface FareSettings].  The fields are finite decimals: they are the
    defaults or come from [parseFloat(value) || 0] in the settings editor. *)
Record FareSettings : Type := {
  baseFare : Q;
  baseDistance : Q;
  ratePerKm : Q
}.

(** The object literal that [loadFareSettings] and the hook's initial state
    build from the three default constants. *)
Definition DEFAULT_SETTINGS : FareSettings :=
  {| baseFare := DEFAULT_MIN_CHARGE;
     baseDistance := DEFAULT_BASE_DISTANCE;
     ratePerKm := DEFAULT_RATE_PER_KM |}.

(** The local wall clock, in milliseconds of local time. *)
Definition Date := Z.

(** [Date.prototype.getHours]: the hour of the local day, 0 to 23. *)
Definition getHours (now : Date) : Z := ((now / 3600000) mod 24)%Z.

Definition isNightTime (now : Date) : bool :=
  let hour := getHours now in
  (22 <=? hour)%Z || (hour <? 5)%Z.

(** What [AsyncStorage] holds under a key, seen through [JSON.parse]: a
    settings record, or text on which [JSON.parse] throws. *)
Inductive StoredValue : Type :=
| Parsed (s : FareSettings)
| Malformed.

(** [AsyncStorage]: a string-keyed store; a missing key reads as [null]. *)
Abbreviation AsyncStorage := (gmap string StoredValue).

Definition getItem (key : string) (storage : AsyncStorage) : option StoredValue :=
  storage !! key.

(** [loadFareSettings]: the parsed record when the key is present; the
    default record when it is absent, or when parsing throws and the [catch]
    block has logged the error. *)
Definition loadFareSettings (storage : AsyncStorage) : FareSettings :=
  match getItem "fareSettings" storage with
  | Some (Parsed savedSettings) => savedSettings
  | Some Malformed => DEFAULT_SETTINGS
  | None => DEFAULT_SETTINGS
  end.

(** The state cells of [useFareCalculator]. *)
Record State : Type := {
  distance : jsnum;
  fare : jsnum;
  isNight : bool;
  fareSettings : FareSettings
}.

Definition initial : State :=
  {| distance := Num 0; fare := Num 0; isNight := false;
     fareSettings := DEFAULT_SETTINGS |}.

Definition _calculateFareInternal (st : State) (distanceKm : jsnum)
    (isNightActive : bool) (settings : option FareSettings) : jsnum :=
  let currentSettings :=
    match settings with Some s => s | None => fareSettings st end in
  let fare :=
    if js_le distanceKm (Num (baseDistance currentSettings))
    then Num (baseFare currentSettings)
    else js_add (Num (baseFare currentSettings))
                (js_mul (Num (ratePerKm currentSettings))
                        (js_sub distanceKm (Num (baseDistance currentSettings)))) in
  let fare :=
    if isNightActive then js_mul fare (Num (1 + NIGHT_SURCHARGE)) else fare in
  Math_round fare.

(** [updateDistance]: reload the tariff, sample the clock, recompute. *)
Definition updateDistance (storage : AsyncStorage) (now : Date)
    (newDistance : jsnum) (st : State) : State :=
  let settings := loadFareSettings storage in
  let currentIsNight := isNightTime now in
  {| distance := newDistance;
     fare := _calculateFareInternal st newDistance currentIsNight (Some settings);
     isNight := currentIsNight;
     fareSettings := settings |}.

Definition resetMeter (st : State) : State :=
  {| distance := Num 0; fare := Num 0; isNight := false;
     fareSettings := fareSettings st |}.

Definition calculateFareForDistance (storage : AsyncStorage) (st : State)
    (distanceKm : jsnum) (isNightActive : bool) : jsnum :=
  let settings := loadFareSettings storage in
  _calculateFareInternal st distanceKm isNightActive (Some settings).

(** The caller's guard in the meter screen's manual entry,
    [parseFloat(value) || 0]: [NaN] and zero both become [0].  Over the
    finite values of this module; [Binary64.or_zero] has the infinities,
    which the guard lets through. *)
Definition or_zero (x : jsnum) : Q :=
  match x with
  | Num q => if Qeq_bool q 0 then 0 else q
  | NaN => 0
  end.

Definition handleManualDistanceChange (storage : AsyncStorage) (now : Date)
    (parsed : jsnum) (st : State) : State :=
  let numValue := or_zero parsed in
  updateDistance storage now (Num numValue) st.

(** *** The specification's reading of the fare *)

(** Nearest integer, a tie going away from zero. *)
Definition round_half_away (q : Q) : Z :=
  if Qle_bool 0 q then Qfloor (q + 0.5) else Qceiling (q - 0.5).

(** The unrounded day subtotal,
    [baseFare + ratePerKm * max(0, d - baseDistanceKm)]. *)
Definition computeFare_unrounded (d : Q) (t : FareSettings) : Q :=
  baseFare t + ratePerKm t * Qmax 0 (d - baseDistance t).

(** All three fields strictly positive. *)
Definition positive_fields (t : FareSettings) : Prop :=
  0 < baseFare t /\ 0 < baseDistance t /\ 0 < ratePerKm t.

End FareCalculator.

(** ** app/(tabs)/settings.tsx: the tariff editor

    The editor on finite field values and a store whose writes go through;
    [Binary64.saveSettings] has the infinite fields, the [null] they are
    stored as, and the [catch] block of a write that fails. *)
Module SettingsScreen.
Import FareCalculator.
Open Scope Q_scope.

Definition DEFAULT_SETTINGS : FareSettings :=
  {| baseFare := 30; baseDistance := 1.5; ratePerKm := 15 |}.

Record State : Type := {
  settings : FareSettings;
  tempSettings : FareSettings
}.

(** The dialogs the save path can raise. *)
Inductive Alert : Type :=
| AllValuesMustBePositive
| BaseDistanceTooLarge
| SettingsSaved.

(** [x > y] on finite numbers. *)
Definition Qgt_bool (x y : Q) : bool := negb (Qle_bool x y).

Definition saveSettings (storage : AsyncStorage) (st : State)
    : AsyncStorage * State * Alert :=
  let t := tempSettings st in
  if Qle_bool (baseFare t) 0 || Qle_bool (baseDistance t) 0
     || Qle_bool (ratePerKm t) 0
  then (storage, st, AllValuesMustBePositive)
  else if Qgt_bool (baseDistance t) 10
  then (storage, st, BaseDistanceTooLarge)
  else (<["fareSettings" := Parsed t]> storage,
        {| settings := t; tempSettings := t |},
        SettingsSaved).

Definition performReset (storage : AsyncStorage) (st : State)
    : AsyncStorage * State :=
  (<["fareSettings" := Parsed DEFAULT_SETTINGS]> storage,
   {| settings := DEFAULT_SETTINGS; tempSettings := DEFAULT_SETTINGS |}).

Definition updateBaseFare (parsed : jsnum) (st : State) : State :=
  let numValue := or_zero parsed in
  {| settings := settings st;
     tempSettings := {| baseFare := numValue;
                        baseDistance := baseDistance (tempSettings st);
                        ratePerKm := ratePerKm (tempSettings st) |} |}.

Definition updateBaseDistance (parsed : jsnum) (st : State) : State :=
  let numValue := or_zero parsed in
  {| settings := settings st;
     tempSettings := {| baseFare := baseFare (tempSettings st);
                        baseDistance := numValue;
                        ratePerKm := ratePerKm (tempSettings st) |} |}.

Definition updateRatePerKm (parsed : jsnum) (st : State) : State :=
  let numValue := or_zero parsed in
  {| settings := settings st;
     tempSettings := {| baseFare := baseFare (tempSettings st);
                        baseDistance := baseDistance (tempSettings st);
                        ratePerKm := numValue |} |}.

(** The two writers of the store: saving an edited tariff, and the reset
    to defaults. *)
Inductive Action : Type :=
| Save (edited : FareSettings)
| ResetToDefaults.

Definition act (w : AsyncStorage * State) (a : Action)
    : AsyncStorage * State :=
  match a with
  | Save edited =>
      fst (saveSettings (fst w)
             {| settings := settings (snd w); tempSettings := edited |})
  | ResetToDefaults => performReset (fst w) (snd w)
  end.

(** What the save path accepts, in the words of its two dialogs. *)
Definition acceptable (t : FareSettings) : Prop :=
  0 < baseFare t /\ 0 < baseDistance t /\ 0 < ratePerKm t
  /\ baseDistance t <= 10.

End SettingsScreen.

(** ** hooks/useLocationTracking.ts *)
Module LocationTracking.
Open Scope R_scope.

Abbreviation jsnum := (number R).

Definition js_lt (a b : jsnum) : bool :=
  match a, b with
  | Num x, Num y => if Rlt_dec x y then true else false
  | _, _ => false
  end.

Definition js_gt (a b : jsnum) : bool := js_lt b a.

Definition js_add (a b : jsnum) : jsnum :=
  match a, b with
  | Num x, Num y => Num (x + y)
  | _, _ => NaN
  end.

(** [Math.sqrt]: [NaN] below zero. *)
Definition Math_sqrt (x : R) : jsnum :=
  if Rle_dec 0 x then Num (sqrt x) else NaN.

(** [Math.atan2 (y, x)] on finite arguments: the angle of the point
    [(x, y)], in [(-PI, PI]]. *)
Definition Math_atan2 (y x : R) : R :=
  if Rlt_dec 0 x then atan (y / x)
  else if Rlt_dec x 0 then
    (if Rle_dec 0 y then atan (y / x) + PI else atan (y / x) - PI)
  else if Rlt_dec 0 y then PI / 2
  else if Rlt_dec y 0 then - (PI / 2)
  else 0.

(** The haversine distance in kilometres. *)
Definition calculateDistance (lat1 lon1 lat2 lon2 : R) : jsnum :=
  let R_earth := 6371 in
  let dLat := (lat2 - lat1) * PI / 180 in
  let dLon := (lon2 - lon1) * PI / 180 in
  let a :=
    sin (dLat / 2) * sin (dLat / 2) +
    cos (lat1 * PI / 180) * cos (lat2 * PI / 180) *
    sin (dLon / 2) * sin (dLon / 2) in
  match Math_sqrt a, Math_sqrt (1 - a) with
  | Num sa, Num s1a =>
      let c := 2 * Math_atan2 sa s1a in
      Num (R_earth * c)
  | _, _ => NaN
  end.

Record Coords : Type := { latitude : R; longitude : R }.

Record LocationObject : Type := { coords : Coords; timestamp : R }.

(** The two watch callbacks differ in the jitter floor only. *)
Inductive Platform : Type := Native | Web.

Definition jitter_floor (p : Platform) : R :=
  match p with
  | Native => 0.01
  | Web => 0.001
  end.

(** The state cells and refs of [useLocationTracking]; [watcherRef] records
    which callback the subscription held in the ref runs.  [leaked] is not
    a cell of the hook: it lists the subscriptions that the position source
    still serves although no ref holds them any more, which is what a start
    on top of a running watcher leaves behind. *)
Record State : Type := {
  currentLocation : option LocationObject;
  distanceTraveled : jsnum;
  isTracking : bool;
  lastLocationRef : option LocationObject;
  watcherRef : option Platform;
  leaked : list Platform
}.

Definition initial : State :=
  {| currentLocation := None; distanceTraveled := Num 0;
     isTracking := false; lastLocationRef := None; watcherRef := None;
     leaked := [] |}.

(** The increment the watch callback hands to [setDistanceTraveled]:
    the haversine delta from the stored reference when it passes the filter,
    nothing otherwise. *)
Definition accepted_delta (p : Platform) (last : option LocationObject)
    (location : LocationObject) : option jsnum :=
  match last with
  | Some lastLocation =>
      let distance :=
        calculateDistance
          (latitude (coords lastLocation)) (longitude (coords lastLocation))
          (latitude (coords location)) (longitude (coords location)) in
      if js_gt distance (Num (jitter_floor p)) && js_lt distance (Num 1)
      then Some distance
      else None
  | None => None
  end.

(** The callback passed to [watchPositionAsync] (native) or
    [watchPosition] (web). *)
Definition watchCallback (p : Platform) (location : LocationObject)
    (st : State) : State :=
  {| currentLocation := Some location;
     distanceTraveled :=
       match accepted_delta p (lastLocationRef st) location with
       | Some distance => js_add (distanceTraveled st) distance
       | None => distanceTraveled st
       end;
     isTracking := isTracking st;
     lastLocationRef := Some location;
     watcherRef := watcherRef st;
     leaked := leaked st |}.

(** [startTracking] is an [async] function: it runs in pieces, between
    which other events can be served.  The piece after the first fix has
    arrived stores the fix, raises [isTracking] and zeroes the total; the
    watcher is not yet registered. *)
Definition startTracking_located (initialLocation : LocationObject)
    (st : State) : State :=
  {| currentLocation := Some initialLocation;
     distanceTraveled := Num 0;
     isTracking := true;
     lastLocationRef := Some initialLocation;
     watcherRef := watcherRef st;
     leaked := leaked st |}.

(** The piece after the watcher is registered: the new subscription
    overwrites the ref.  A subscription that the ref still held is not
    removed, so it stays active. *)
Definition startTracking_subscribed (p : Platform) (st : State) : State :=
  {| currentLocation := currentLocation st;
     distanceTraveled := distanceTraveled st;
     isTracking := isTracking st;
     lastLocationRef := lastLocationRef st;
     watcherRef := Some p;
     leaked := match watcherRef st with
               | Some held => held :: leaked st
               | None => leaked st
               end |}.

(** The [catch] block, and the error callback of the web watcher: only
    [isTracking] is cleared. *)
Definition startTracking_failed (st : State) : State :=
  {| currentLocation := currentLocation st;
     distanceTraveled := distanceTraveled st;
     isTracking := false;
     lastLocationRef := lastLocationRef st;
     watcherRef := watcherRef st;
     leaked := leaked st |}.

(** [startTracking] run without interruption.  [acquired] is the first fix,
    [None] when permission is refused or no fix arrives, in which case the
    [catch] block clears [isTracking] and nothing else changes; with a fix
    the watcher is registered at once.  A start that is interrupted, or
    whose watcher registration fails after the total was zeroed, is the
    sequence of its pieces. *)
Definition startTracking (p : Platform) (acquired : option LocationObject)
    (st : State) : State :=
  match acquired with
  | Some initialLocation =>
      startTracking_subscribed p (startTracking_located initialLocation st)
  | None => startTracking_failed st
  end.

(** [stopTracking] removes the subscription the ref holds, and no other. *)
Definition stopTracking (st : State) : State :=
  {| currentLocation := currentLocation st;
     distanceTraveled := distanceTraveled st;
     isTracking := false;
     lastLocationRef := lastLocationRef st;
     watcherRef := None;
     leaked := leaked st |}.

Definition resetTracking (st : State) : State :=
  {| currentLocation := None;
     distanceTraveled := Num 0;
     isTracking := isTracking st;
     lastLocationRef := None;
     watcherRef := watcherRef st;
     leaked := leaked st |}.

(** The serialized events of a session: the calls of the hook's functions,
    the pieces of an interrupted start, and the callbacks of the position
    source. *)
Inductive Event : Type :=
| Start (p : Platform) (acquired : option LocationObject)
| Sample (location : LocationObject)
| Stop
| Reset
| Located (initialLocation : LocationObject)
| Subscribed (p : Platform)
| WatchRefused
| PositionError
| LeakedSample (i : nat) (location : LocationObject).

(** A sample that arrives through the subscription held in the ref; the
    position source does not call back through a removed subscription. *)
Definition deliver (location : LocationObject) (st : State) : State :=
  match watcherRef st with
  | Some p => watchCallback p location st
  | None => st
  end.

(** A sample that arrives through the [i]-th leaked subscription. *)
Definition deliver_leaked (i : nat) (location : LocationObject)
    (st : State) : State :=
  match nth_error (leaked st) i with
  | Some p => watchCallback p location st
  | None => st
  end.

Definition step (st : State) (e : Event) : State :=
  match e with
  | Start p acquired => startTracking p acquired st
  | Sample location => deliver location st
  | Stop => stopTracking st
  | Reset => resetTracking st
  | Located initialLocation => startTracking_located initialLocation st
  | Subscribed p => startTracking_subscribed p st
  | WatchRefused => startTracking_failed st
  | PositionError => startTracking_failed st
  | LeakedSample i location => deliver_leaked i location st
  end.

(** The events that set the total to zero: a reset, and a start that has
    its first fix. *)
Definition zeroing (e : Event) : bool :=
  match e with
  | Reset | Start _ (Some _) | Located _ => true
  | _ => false
  end.

(** The callbacks of the position source. *)
Definition delivery (e : Event) : bool :=
  match e with
  | Sample _ | LeakedSample _ _ => true
  | _ => false
  end.

Definition run (st : State) (events : list Event) : State :=
  fold_left step events st.

(** [a <= b] between two finite numbers. *)
Definition finite_le (a b : jsnum) : Prop :=
  match a, b with
  | Num x, Num y => x <= y
  | _, _ => False
  end.

(** [a < b] between two finite numbers. *)
Definition finite_lt (a b : jsnum) : Prop :=
  match a, b with
  | Num x, Num y => x < y
  | _, _ => False
  end.

(** The total is a non-negative number. *)
Definition total_ok (st : State) : Prop :=
  finite_le (Num 0) (distanceTraveled st).

(** A fix at the given latitude and longitude, in degrees. *)
Definition at_ (lat lon : R) : LocationObject :=
  {| coords := {| latitude := lat; longitude := lon |}; timestamp := 0 |}.

End LocationTracking.

(** ** app/(tabs)/index.tsx: the meter screen *)
Module MeterScreen.

Record State : Type := {
  isRunning : bool;
  elapsedTime : Z;
  manualDistance : string;
  showManualInput : bool;
  calculator : FareCalculator.State;
  tracking : LocationTracking.State
}.

(** The one-second interval, armed while the meter runs. *)
Definition tick (st : State) : State :=
  {| isRunning := isRunning st;
     elapsedTime := if isRunning st then (elapsedTime st + 1)%Z
                    else elapsedTime st;
     manualDistance := manualDistance st;
     showManualInput := showManualInput st;
     calculator := calculator st;
     tracking := tracking st |}.

Definition handleStopMeter (st : State) : State :=
  {| isRunning := false;
     elapsedTime := elapsedTime st;
     manualDistance := manualDistance st;
     showManualInput := false;
     calculator := calculator st;
     tracking := LocationTracking.stopTracking (tracking st) |}.

Definition handleResetMeter (st : State) : State :=
  {| isRunning := false;
     elapsedTime := 0;
     manualDistance := "";
     showManualInput := false;
     calculator := FareCalculator.resetMeter (calculator st);
     tracking := LocationTracking.stopTracking (tracking st) |}.

End MeterScreen.

(** ** app/(tabs)/trip-planner.tsx: the fare breakdown *)
Module TripPlanner.
Import FareCalculator.
Open Scope Q_scope.

(** [Math.max] of two numbers: [NaN] as soon as one side is [NaN]. *)
Definition Math_max (a b : jsnum) : jsnum :=
  match a, b with
  | Num x, Num y => Num (Qmax x y)
  | _, _ => NaN
  end.

Record Breakdown : Type := {
  baseFareAmount : jsnum;
  additionalDistance : jsnum;
  additionalFareAmount : jsnum;
  subtotal : jsnum;
  nightSurcharge : jsnum
}.

Definition calculateBreakdownValues (fareSettings : FareSettings)
    (estimatedDistance : jsnum) (isNightForTrip : bool) : Breakdown :=
  let baseFareAmount := Num (baseFare fareSettings) in
  let additionalDistance :=
    Math_max (Num 0)
      (js_sub estimatedDistance (Num (baseDistance fareSettings))) in
  let additionalFareAmount :=
    js_mul additionalDistance (Num (ratePerKm fareSettings)) in
  let subtotal := js_add baseFareAmount additionalFareAmount in
  let nightSurcharge :=
    if isNightForTrip then js_mul subtotal (Num 0.5) else Num 0 in
  {| baseFareAmount := baseFareAmount;
     additionalDistance := additionalDistance;
     additionalFareAmount := additionalFareAmount;
     subtotal := subtotal;
     nightSurcharge := nightSurcharge |}.

End TripPlanner.

(** ** app/(tabs)/settings.tsx: the fare preview of the editor *)
Module SettingsPreview.
Import FareCalculator SettingsScreen.
Open Scope Q_scope.


End SettingsPreview.

(** ** app/(tabs)/index.tsx: the elapsed-time display *)
Module MeterDisplay.
Open Scope Z_scope.

(** [String.prototype.padStart] with a one-character pad. *)
Definition padStart (targetLength : nat) (pad : Ascii.ascii) (s : string)
    : string :=
  String.string_of_list_ascii (repeat pad (targetLength - String.length s))
  +:+ s.

(** [formatTime]: minutes and seconds of a whole number of seconds, each
    padded to two digits. *)
Definition formatTime (seconds : Z) : string :=
  let mins := seconds / 60 in
  let secs := Z.rem seconds 60 in
  padStart 2 "0"%char (pretty mins) +:+ ":"
  +:+ padStart 2 "0"%char (pretty secs).

End MeterDisplay.

(** ** Sequences of samples *)
Module SampleSequences.
Import LocationTracking.

(** Every sample of the list fails the filter against the sample before
    it, the first one against [last]. *)
Fixpoint all_rejected (p : Platform) (last : LocationObject)
    (samples : list LocationObject) : Prop :=
  match samples with
  | [] => True
  | location :: rest =>
      accepted_delta p (Some last) location = None
      /\ all_rejected p location rest
  end.

End SampleSequences.

(** ** The fare engine and the settings editor in binary64 arithmetic *)
Module Binary64.
Open Scope Z_scope.

(** A JavaScript number as it is: an IEEE-754 double, with its two zeros,
    its two infinities and [NaN]. *)
Abbreviation binary64 := spec_float.

Definition prec : Z := 53.
Definition emax : Z := 1024.

(** The arithmetic of the language: every operation rounds its exact result
    to the nearest double, ties to even. *)
Definition add : binary64 -> binary64 -> binary64 := SFadd prec emax.
Definition sub : binary64 -> binary64 -> binary64 := SFsub prec emax.
Definition mul : binary64 -> binary64 -> binary64 := SFmul prec emax.
Definition div : binary64 -> binary64 -> binary64 := SFdiv prec emax.

(** [x <= y], [x < y] and [x > y]: false as soon as one side is [NaN]. *)
Definition leb : binary64 -> binary64 -> bool := SFleb.
Definition ltb : binary64 -> binary64 -> bool := SFltb.
Definition gtb (x y : binary64) : bool := SFltb y x.

(** The double of a whole number. *)
Definition of_Z (z : Z) : binary64 := binary_normalize prec emax z 0 false.

(** The double a decimal literal denotes: the one nearest to the decimal,
    for numerators and denominators below 2^53. *)
Definition literal (q : Q) : binary64 :=
  div (of_Z (Qnum q)) (of_Z (Zpos (Qden q))).

(** The exact value of a finite double; zero for the others. *)
Definition value (x : binary64) : Q :=
  match x with
  | S754_finite s m e =>
      match e with
      | Zneg k => Qmake (cond_Zopp s (Zpos m)) (2 ^ k)%positive
      | _ => inject_Z (cond_Zopp s (Zpos m) * 2 ^ e)
      end
  | _ => 0%Q
  end.

(** [Math.round]: the whole number nearest to [x], a tie going to the
    larger one; the sign of [x] is kept on a zero result; zeros, infinities
    and [NaN] are returned as they are. *)
Definition Math_round (x : binary64) : binary64 :=
  match x with
  | S754_finite s _ _ =>
      match Qfloor (value x + 0.5)%Q with
      | Z0 => S754_zero s
      | n => of_Z n
      end
  | _ => x
  end.

(** [Math.max] of two numbers: [NaN] as soon as one is [NaN], and [+0]
    counts as larger than [-0]. *)
Definition Math_max (x y : binary64) : binary64 :=
  match x, y with
  | S754_nan, _ | _, S754_nan => S754_nan
  | S754_zero sx, S754_zero sy => S754_zero (sx && sy)
  | _, _ => if ltb x y then y else x
  end.

Definition is_finite (x : binary64) : bool :=
  match x with
  | S754_zero _ | S754_finite _ _ _ => true
  | _ => false
  end.

Definition is_nan (x : binary64) : bool :=
  match x with
  | S754_nan => true
  | _ => false
  end.

(** The sign bit of a number that is not [NaN]. *)
Definition signed (s : bool) (x : binary64) : Prop :=
  match x with
  | S754_zero s' | S754_infinity s' | S754_finite s' _ _ => s' = s
  | S754_nan => False
  end.

(** A double in canonical form that is finite and greater than zero. *)
Definition positive_double (x : binary64) : bool :=
  match x with
  | S754_finite false m e => bounded prec emax m e
  | _ => false
  end.

(** A double in canonical form that is finite and not negative. *)
Definition nonnegative_double (x : binary64) : bool :=
  match x with
  | S754_zero _ => true
  | S754_finite false m e => bounded prec emax m e
  | _ => false
  end.

Definition DEFAULT_MIN_CHARGE : binary64 := literal 30.
Definition DEFAULT_BASE_DISTANCE : binary64 := literal 1.5.
Definition DEFAULT_RATE_PER_KM : binary64 := literal 15.
Definition NIGHT_SURCHARGE : binary64 := literal 0.5.

Record FareSettings : Type := {
  baseFare : binary64;
  baseDistance : binary64;
  ratePerKm : binary64
}.

Definition DEFAULT_SETTINGS : FareSettings :=
  {| baseFare := DEFAULT_MIN_CHARGE;
     baseDistance := DEFAULT_BASE_DISTANCE;
     ratePerKm := DEFAULT_RATE_PER_KM |}.

(** *** JSON and the store *)

(** [JSON.stringify] on a number, read back by [JSON.parse]: a finite
    double comes back as itself, [-0] as [0], and an infinity or [NaN] is
    written as [null]. *)
Definition JSON_number (x : binary64) : option binary64 :=
  match x with
  | S754_finite _ _ _ => Some x
  | S754_zero _ => Some (S754_zero false)
  | _ => None
  end.

(** A settings record after [JSON.parse]: [None] is [null]. *)
Record StoredSettings : Type := {
  json_baseFare : option binary64;
  json_baseDistance : option binary64;
  json_ratePerKm : option binary64
}.

Definition JSON_stringify (t : FareSettings) : StoredSettings :=
  {| json_baseFare := JSON_number (baseFare t);
     json_baseDistance := JSON_number (baseDistance t);
     json_ratePerKm := JSON_number (ratePerKm t) |}.

(** What the store holds under a key: text that parses to a settings
    record, or text on which [JSON.parse] throws. *)
Inductive StoredValue : Type :=
| Parsed (s : StoredSettings)
| Malformed.

Abbreviation AsyncStorage := (gmap string StoredValue).

Definition getItem (key : string) (storage : AsyncStorage)
    : option StoredValue :=
  storage !! key.

(** Every use the engine makes of a field is a comparison or an arithmetic
    operation, and those read [null] as [+0]. *)
Definition ToNumber (v : option binary64) : binary64 :=
  match v with
  | Some x => x
  | None => S754_zero false
  end.

Definition read_settings (s : StoredSettings) : FareSettings :=
  {| baseFare := ToNumber (json_baseFare s);
     baseDistance := ToNumber (json_baseDistance s);
     ratePerKm := ToNumber (json_ratePerKm s) |}.

Definition loadFareSettings (storage : AsyncStorage) : FareSettings :=
  match getItem "fareSettings" storage with
  | Some (Parsed savedSettings) => read_settings savedSettings
  | Some Malformed => DEFAULT_SETTINGS
  | None => DEFAULT_SETTINGS
  end.

(** *** hooks/useFareCalculator.ts *)

Record State : Type := {
  distance : binary64;
  fare : binary64;
  isNight : bool;
  fareSettings : FareSettings
}.

Definition initial : State :=
  {| distance := literal 0; fare := literal 0; isNight := false;
     fareSettings := DEFAULT_SETTINGS |}.

Definition _calculateFareInternal (st : State) (distanceKm : binary64)
    (isNightActive : bool) (settings : option FareSettings) : binary64 :=
  let currentSettings :=
    match settings with Some s => s | None => fareSettings st end in
  let fare :=
    if leb distanceKm (baseDistance currentSettings)
    then baseFare currentSettings
    else add (baseFare currentSettings)
             (mul (ratePerKm currentSettings)
                  (sub distanceKm (baseDistance currentSettings))) in
  let fare :=
    if isNightActive then mul fare (add (literal 1) NIGHT_SURCHARGE)
    else fare in
  Math_round fare.

Definition updateDistance (storage : AsyncStorage)
    (now : FareCalculator.Date) (newDistance : binary64) (st : State)
    : State :=
  let settings := loadFareSettings storage in
  let currentIsNight := FareCalculator.isNightTime now in
  {| distance := newDistance;
     fare := _calculateFareInternal st newDistance currentIsNight
               (Some settings);
     isNight := currentIsNight;
     fareSettings := settings |}.

Definition calculateFareForDistance (storage : AsyncStorage) (st : State)
    (distanceKm : binary64) (isNightActive : bool) : binary64 :=
  let settings := loadFareSettings storage in
  _calculateFareInternal st distanceKm isNightActive (Some settings).

(** The specification's subtotal, evaluated in binary64:
    [baseFare + ratePerKm * max(0, d - baseDistanceKm)]. *)
Definition computeFare_unrounded (d : binary64) (t : FareSettings)
    : binary64 :=
  add (baseFare t)
      (mul (ratePerKm t) (Math_max (literal 0) (sub d (baseDistance t)))).

(** All three fields finite and greater than zero. *)
Definition positive_fields (t : FareSettings) : Prop :=
  positive_double (baseFare t) = true
  /\ positive_double (baseDistance t) = true
  /\ positive_double (ratePerKm t) = true.

(** *** app/(tabs)/settings.tsx *)

(** [parseFloat(value) || 0]: [NaN] and the two zeros become [0]; every
    other number, the infinities included, stays. *)
Definition or_zero (x : binary64) : binary64 :=
  match x with
  | S754_nan | S754_zero _ => literal 0
  | _ => x
  end.

Record Editor : Type := {
  settings : FareSettings;
  tempSettings : FareSettings
}.

(** The dialogs of the save path. *)
Inductive Alert : Type :=
| AllValuesMustBePositive
| BaseDistanceTooLarge
| SettingsSaved
| FailedToSaveSettings.

(** [saveSettings]; [setItem_succeeds] tells whether the write to the store
    goes through, the [catch] block handling the case in which it does
    not. *)
Definition saveSettings (setItem_succeeds : bool) (storage : AsyncStorage)
    (st : Editor) : AsyncStorage * Editor * Alert :=
  let t := tempSettings st in
  if leb (baseFare t) (literal 0) || leb (baseDistance t) (literal 0)
     || leb (ratePerKm t) (literal 0)
  then (storage, st, AllValuesMustBePositive)
  else if gtb (baseDistance t) (literal 10)
  then (storage, st, BaseDistanceTooLarge)
  else if setItem_succeeds
  then (<["fareSettings" := Parsed (JSON_stringify t)]> storage,
        {| settings := t; tempSettings := t |},
        SettingsSaved)
  else (storage, st, FailedToSaveSettings).

Definition performReset (setItem_succeeds : bool) (storage : AsyncStorage)
    (st : Editor) : AsyncStorage * Editor :=
  if setItem_succeeds
  then (<["fareSettings" := Parsed (JSON_stringify DEFAULT_SETTINGS)]> storage,
        {| settings := DEFAULT_SETTINGS; tempSettings := DEFAULT_SETTINGS |})
  else (storage, st).

(** [loadSettings] of the editor: a stored record replaces both copies. *)
Definition loadSettings (storage : AsyncStorage) (st : Editor) : Editor :=
  match getItem "fareSettings" storage with
  | Some (Parsed parsed) =>
      {| settings := read_settings parsed;
         tempSettings := read_settings parsed |}
  | _ => st
  end.

Definition updateBaseFare (parsed : binary64) (st : Editor) : Editor :=
  let numValue := or_zero parsed in
  {| settings := settings st;
     tempSettings := {| baseFare := numValue;
                        baseDistance := baseDistance (tempSettings st);
                        ratePerKm := ratePerKm (tempSettings st) |} |}.

Definition updateBaseDistance (parsed : binary64) (st : Editor) : Editor :=
  let numValue := or_zero parsed in
  {| settings := settings st;
     tempSettings := {| baseFare := baseFare (tempSettings st);
                        baseDistance := numValue;
                        ratePerKm := ratePerKm (tempSettings st) |} |}.

Definition updateRatePerKm (parsed : binary64) (st : Editor) : Editor :=
  let numValue := or_zero parsed in
  {| settings := settings st;
     tempSettings := {| baseFare := baseFare (tempSettings st);
                        baseDistance := baseDistance (tempSettings st);
                        ratePerKm := numValue |} |}.

(** The events of the editor. *)
Inductive Edit : Type :=
| Load
| TypeBaseFare (parsed : binary64)
| TypeBaseDistance (parsed : binary64)
| TypeRatePerKm (parsed : binary64)
| Save (setItem_succeeds : bool)
| ResetToDefaults (setItem_succeeds : bool).

Definition edit (w : AsyncStorage * Editor) (e : Edit)
    : AsyncStorage * Editor :=
  match e with
  | Load => (fst w, loadSettings (fst w) (snd w))
  | TypeBaseFare parsed => (fst w, updateBaseFare parsed (snd w))
  | TypeBaseDistance parsed => (fst w, updateBaseDistance parsed (snd w))
  | TypeRatePerKm parsed => (fst w, updateRatePerKm parsed (snd w))
  | Save ok => fst (saveSettings ok (fst w) (snd w))
  | ResetToDefaults ok => performReset ok (fst w) (snd w)
  end.

(** The editor as it mounts. *)
Definition mounted : Editor :=
  {| settings := DEFAULT_SETTINGS; tempSettings := DEFAULT_SETTINGS |}.

(** The specification's valid tariff: three fields strictly positive and a
    base distance of at most 10. *)
Definition acceptable (t : FareSettings) : Prop :=
  ltb (literal 0) (baseFare t) = true
  /\ ltb (literal 0) (baseDistance t) = true
  /\ ltb (literal 0) (ratePerKm t) = true
  /\ leb (baseDistance t) (literal 10) = true.

Definition no_NaN_fields (t : FareSettings) : Prop :=
  is_nan (baseFare t) = false /\ is_nan (baseDistance t) = false
  /\ is_nan (ratePerKm t) = false.

Definition finite_fields (t : FareSettings) : Prop :=
  is_finite (baseFare t) = true /\ is_finite (baseDistance t) = true
  /\ is_finite (ratePerKm t) = true.

(** A typed value that is a finite number or does not parse. *)
Definition finite_edit (e : Edit) : bool :=
  match e with
  | TypeBaseFare x | TypeBaseDistance x | TypeRatePerKm x =>
      is_finite (or_zero x)
  | _ => true
  end.

(** JSON text holds finite numbers and [null] only. *)
Definition json_field_ok (v : option binary64) : Prop :=
  match v with
  | Some x => is_finite x = true
  | None => True
  end.

Definition store_ok (storage : AsyncStorage) : Prop :=
  forall s, getItem "fareSettings" storage = Some (Parsed s) ->
    json_field_ok (json_baseFare s) /\ json_field_ok (json_baseDistance s)
    /\ json_field_ok (json_ratePerKm s).

(** What the editor keeps true when only finite numbers are typed. *)
Definition sound (w : AsyncStorage * Editor) : Prop :=
  acceptable (loadFareSettings (fst w))
  /\ finite_fields (loadFareSettings (fst w))
  /\ finite_fields (tempSettings (snd w)).

(** *** app/(tabs)/meter.tsx: manual entry *)

Definition handleManualDistanceChange (storage : AsyncStorage)
    (now : FareCalculator.Date) (parsed : binary64) (st : State) : State :=
  let numValue := or_zero parsed in
  updateDistance storage now numValue st.

End Binary64.

(** * Properties *)

(** ** The fare engine *)
Section FareEngine.
Import FareCalculator.
Open Scope Q_scope.

Lemma Qle_bool_false (x y : Q) : Qle_bool x y = false <-> y < x.
Proof.
  split.
  - intros H. apply Qnot_le_lt. intros Hle.
    apply Qle_bool_iff in Hle. congruence.
  - intros H. destruct (Qle_bool x y) eqn:E; [| reflexivity].
    apply Qle_bool_iff in E. lra.
Qed.

Lemma round_half_away_nonneg (q : Q) :
  0 <= q -> round_half_away q = Qfloor (q + 0.5).
Proof.
  intros H. unfold round_half_away.
  apply Qle_bool_iff in H. now rewrite H.
Qed.

Lemma round_half_away_comp (p q : Q) :
  p == q -> round_half_away p = round_half_away q.
Proof.
  intros H. unfold round_half_away.
  assert (Hb : Qle_bool 0 p = Qle_bool 0 q).
  { destruct (Qle_bool 0 p) eqn:Ep, (Qle_bool 0 q) eqn:Eq; try reflexivity.
    - apply Qle_bool_iff in Ep. apply Qle_bool_false in Eq. lra.
    - apply Qle_bool_iff in Eq. apply Qle_bool_false in Ep. lra. }
  rewrite Hb. destruct (Qle_bool 0 q).
  - apply Qfloor_comp. now rewrite H.
  - unfold Qceiling. f_equal. apply Qfloor_comp. now rewrite H.
Qed.

Lemma unrounded_within_base (d : Q) (t : FareSettings) :
  d <= baseDistance t -> computeFare_unrounded d t == baseFare t.
Proof.
  intros H. unfold computeFare_unrounded.
  rewrite (Q.max_l 0 (d - baseDistance t)) by lra. ring.
Qed.

Lemma unrounded_beyond_base (d : Q) (t : FareSettings) :
  baseDistance t < d ->
  computeFare_unrounded d t ==
  baseFare t + ratePerKm t * (d - baseDistance t).
Proof.
  intros H. unfold computeFare_unrounded.
  rewrite (Q.max_r 0 (d - baseDistance t)) by lra. reflexivity.
Qed.

Lemma unrounded_positive (d : Q) (t : FareSettings) :
  positive_fields t -> 0 < computeFare_unrounded d t.
Proof.
  intros (Hf & Hd & Hr).
  destruct (Qlt_le_dec (baseDistance t) d) as [H | H].
  - rewrite unrounded_beyond_base by assumption.
    assert (0 < ratePerKm t * (d - baseDistance t)).
    { apply Qmult_lt_0_compat; lra. }
    lra.
  - rewrite unrounded_within_base by assumption. assumption.
Qed.

(** The engine on a finite distance: one rounding of the day subtotal,
    scaled by 1.5 at night. *)
Lemma fare_of_finite (st : State) (d : Q) (n : bool) (t : FareSettings) :
  _calculateFareInternal st (Num d) n (Some t) =
  Num (inject_Z (Qfloor
    ((if n then 1.5 else 1) * computeFare_unrounded d t + 0.5))).
Proof.
  unfold _calculateFareInternal. cbn [js_le js_add js_sub js_mul].
  destruct (Qle_bool d (baseDistance t)) eqn:E.
  - apply Qle_bool_iff in E.
    pose proof (unrounded_within_base d t E) as Hs.
    destruct n; cbn [js_mul Math_round]; do 2 f_equal; apply Qfloor_comp;
      rewrite Hs; unfold NIGHT_SURCHARGE; ring.
  - apply Qle_bool_false in E.
    pose proof (unrounded_beyond_base d t E) as Hs.
    destruct n; cbn [js_mul Math_round]; do 2 f_equal; apply Qfloor_comp;
      rewrite Hs; unfold NIGHT_SURCHARGE; ring.
Qed.

Lemma unrounded_monotone (d1 d2 : Q) (t : FareSettings) :
  0 <= ratePerKm t -> d1 <= d2 ->
  computeFare_unrounded d1 t <= computeFare_unrounded d2 t.
Proof.
  intros Hr Hd. unfold computeFare_unrounded.
  assert (Hm : Qmax 0 (d1 - baseDistance t) <= Qmax 0 (d2 - baseDistance t)).
  { apply Q.max_le_compat_l. lra. }
  assert (ratePerKm t * Qmax 0 (d1 - baseDistance t)
          <= ratePerKm t * Qmax 0 (d2 - baseDistance t)).
  { rewrite !(Qmult_comm (ratePerKm t)). now apply Qmult_le_compat_r. }
  lra.
Qed.

(** C6: for a tariff with positive fields and a fixed night flag, the fare
    does not decrease when the distance grows: [0 <= d1 < d2] gives
    [fare d1 <= fare d2], both fares being numbers. *)
Theorem fare_monotone_in_distance
    (st : State) (d1 d2 : Q) (n : bool) (t : FareSettings) :
  positive_fields t -> 0 <= d1 -> 0 <= d2 -> d1 < d2 ->
  js_le (_calculateFareInternal st (Num d1) n (Some t))
        (_calculateFareInternal st (Num d2) n (Some t)) = true.
Proof.
  intros (Hf & Hb & Hr) H1 H2 Hlt.
  rewrite !fare_of_finite. cbn [js_le].
  apply Qle_bool_iff. rewrite <- Zle_Qle. apply Qfloor_resp_le.
  assert (Hm : computeFare_unrounded d1 t <= computeFare_unrounded d2 t)
    by (apply unrounded_monotone; lra).
  destruct n; lra.
Qed.

Lemma fare_monotone_in_distance_witness :
  positive_fields DEFAULT_SETTINGS /\ 0 <= 2 /\ 0 <= 5 /\ 2 < 5 /\
  js_le (_calculateFareInternal initial (Num 2) true (Some DEFAULT_SETTINGS))
        (_calculateFareInternal initial (Num 5) true (Some DEFAULT_SETTINGS))
  = true.
Proof.
  assert (Hp : positive_fields DEFAULT_SETTINGS)
    by (repeat split; reflexivity).
  assert (H2 : 0 <= 2) by (vm_compute; discriminate).
  assert (H5 : 0 <= 5) by (vm_compute; discriminate).
  assert (Hlt : 2 < 5) by reflexivity.
  repeat (split; [assumption |]).
  exact (fare_monotone_in_distance initial 2 5 true DEFAULT_SETTINGS
           Hp H2 H5 Hlt).
Defined.

(** The engine has no guard on its distance argument: [NaN] fails the
    comparison with the base distance, takes the per-kilometre branch and
    comes out of [Math.round] as [NaN]. *)
Lemma fare_of_NaN (st : State) (n : bool) (t : FareSettings) :
  _calculateFareInternal st NaN n (Some t) = NaN.
Proof. destruct n; reflexivity. Qed.


(** A negative base distance breaks the agreement with distance 0 for
    negative distances as well. *)
Example negative_distance_negative_base :
  _calculateFareInternal initial (Num (-0.5)) false
    (Some {| baseFare := 30; baseDistance := -1; ratePerKm := 15 |}) = Num 38
  /\ _calculateFareInternal initial (Num 0) false
    (Some {| baseFare := 30; baseDistance := -1; ratePerKm := 15 |}) = Num 45.
Proof. split; reflexivity. Qed.



(** C2, as stated, fails: a persisted tariff with [baseFare = 0] is loaded as
    it is, and the fare for 1 km is then 0 where the default tariff gives
    30. *)
Lemma invalid_persisted_tariff_is_loaded :
  let zero_base_fare :=
    {| baseFare := 0; baseDistance := 1.5; ratePerKm := 15 |} in
  let storage : AsyncStorage :=
    {[ "fareSettings" := Parsed zero_base_fare ]} in
  loadFareSettings storage = zero_base_fare
  /\ loadFareSettings storage <> DEFAULT_SETTINGS
  /\ calculateFareForDistance storage initial (Num 1) false = Num 0
  /\ _calculateFareInternal initial (Num 1) false (Some DEFAULT_SETTINGS)
     = Num 30.
Proof.
  cbv zeta. repeat split; try reflexivity.
  vm_compute. discriminate.
Qed.

(** C2, amended: when nothing is persisted under the key, or the persisted
    text does not parse, loading substitutes the default tariff without an
    error, and the fare computed after loading is the fare under the default
    tariff.  A persisted tariff that parses is loaded unchanged, with no
    validation. *)
Theorem load_substitutes_default_when_absent_or_malformed
    (storage : AsyncStorage) (st : State) (d : jsnum) (n : bool) :
  getItem "fareSettings" storage = None
  \/ getItem "fareSettings" storage = Some Malformed ->
  loadFareSettings storage = DEFAULT_SETTINGS
  /\ DEFAULT_SETTINGS =
     {| baseFare := 30; baseDistance := 1.5; ratePerKm := 15 |}
  /\ calculateFareForDistance storage st d n =
     _calculateFareInternal st d n (Some DEFAULT_SETTINGS)
  /\ (forall (other : AsyncStorage) (s : FareSettings),
       loadFareSettings (<["fareSettings" := Parsed s]> other) = s).
Proof.
  intros H.
  assert (Hl : loadFareSettings storage = DEFAULT_SETTINGS).
  { unfold loadFareSettings. destruct H as [-> | ->]; reflexivity. }
  repeat split.
  - exact Hl.
  - unfold calculateFareForDistance. now rewrite Hl.
  - intros other s. unfold loadFareSettings, getItem.
    now rewrite lookup_insert_eq.
Qed.

Lemma load_substitutes_default_when_absent_or_malformed_witness :
  (getItem "fareSettings" (∅ : AsyncStorage) = None
   \/ getItem "fareSettings" (∅ : AsyncStorage) = Some Malformed)
  /\ loadFareSettings ∅ = DEFAULT_SETTINGS.
Proof.
  assert (H : getItem "fareSettings" (∅ : AsyncStorage) = None
              \/ getItem "fareSettings" (∅ : AsyncStorage) = Some Malformed)
    by (left; reflexivity).
  split; [exact H |].
  exact (proj1 (load_substitutes_default_when_absent_or_malformed
                  ∅ initial (Num 2) false H)).
Defined.

(** C8: the night window is true exactly for the local hours 22, 23, 0, 1,
    2, 3 and 4, and false exactly for the hours 5 to 21; an instant at
    05:00 and one at 21:00 are by day. *)
Theorem night_window_hours (now : Date) :
  (isNightTime now = true <->
     In (getHours now) [22; 23; 0; 1; 2; 3; 4]%Z)
  /\ (isNightTime now = false <-> (5 <= getHours now <= 21)%Z)
  /\ (0 <= getHours now <= 23)%Z
  /\ getHours (5 * 3600000)%Z = 5%Z
  /\ isNightTime (5 * 3600000)%Z = false
  /\ getHours (21 * 3600000)%Z = 21%Z
  /\ isNightTime (21 * 3600000)%Z = false.
Proof.
  assert (Hr : (0 <= getHours now < 24)%Z)
    by (unfold getHours; apply Z.mod_pos_bound; lia).
  assert (Hn : isNightTime now = true <->
               (22 <= getHours now \/ getHours now < 5)%Z).
  { unfold isNightTime. cbv zeta. rewrite orb_true_iff. lia. }
  assert (Hd : isNightTime now = false <-> (5 <= getHours now <= 21)%Z).
  { destruct (isNightTime now); split; intros H; try reflexivity;
      try discriminate; lia. }
  split; [| split; [exact Hd |]].
  - rewrite Hn. cbn [In]. lia.
  - repeat split; try reflexivity; lia.
Qed.

End FareEngine.

(** ** The settings editor *)
Section SettingsEditor.
Import FareCalculator SettingsScreen.
Open Scope Q_scope.

Lemma saveSettings_accepts (storage : AsyncStorage) (st : State) :
  acceptable (tempSettings st) ->
  saveSettings storage st =
    (<["fareSettings" := Parsed (tempSettings st)]> storage,
     {| settings := tempSettings st; tempSettings := tempSettings st |},
     SettingsSaved).
Proof.
  intros (Hf & Hd & Hr & Hmax). unfold saveSettings, Qgt_bool. cbv zeta.
  apply Qle_bool_false in Hf, Hd, Hr. rewrite Hf, Hd, Hr. cbn [orb].
  apply Qle_bool_iff in Hmax. rewrite Hmax. reflexivity.
Qed.

Lemma saveSettings_rejects (storage : AsyncStorage) (st : State) :
  ~ acceptable (tempSettings st) ->
  fst (saveSettings storage st) = (storage, st)
  /\ snd (saveSettings storage st) <> SettingsSaved.
Proof.
  intros Hn. unfold saveSettings, Qgt_bool. cbv zeta.
  destruct (Qle_bool (baseFare (tempSettings st)) 0) eqn:Ef;
    [split; [reflexivity | discriminate] |].
  destruct (Qle_bool (baseDistance (tempSettings st)) 0) eqn:Ed;
    [split; [reflexivity | discriminate] |].
  destruct (Qle_bool (ratePerKm (tempSettings st)) 0) eqn:Er;
    [split; [reflexivity | discriminate] |].
  cbn [orb].
  destruct (Qle_bool (baseDistance (tempSettings st)) 10) eqn:Em;
    [| split; [reflexivity | discriminate]].
  exfalso. apply Hn.
  apply Qle_bool_false in Ef, Ed, Er. apply Qle_bool_iff in Em.
  repeat split; assumption.
Qed.

Example save_default_into_empty_store :
  saveSettings ∅
    {| settings := DEFAULT_SETTINGS; tempSettings := DEFAULT_SETTINGS |} =
  ({[ "fareSettings" := Parsed DEFAULT_SETTINGS ]},
   {| settings := DEFAULT_SETTINGS; tempSettings := DEFAULT_SETTINGS |},
   SettingsSaved).
Proof. reflexivity. Qed.

Example save_rejects_eleven_km :
  let edited := {| baseFare := 30; baseDistance := 11; ratePerKm := 15 |} in
  let st := {| settings := DEFAULT_SETTINGS; tempSettings := edited |} in
  saveSettings ∅ st = (∅, st, BaseDistanceTooLarge).
Proof. reflexivity. Qed.

Example save_rejects_zero_rate :
  let edited := {| baseFare := 30; baseDistance := 1.5; ratePerKm := 0 |} in
  let st := {| settings := DEFAULT_SETTINGS; tempSettings := edited |} in
  saveSettings ∅ st = (∅, st, AllValuesMustBePositive).
Proof. reflexivity. Qed.

(** A store that only the editor has written, with finite field values,
    never holds an invalid tariff: whatever is loaded from it has positive
    fields. *)
Lemma editor_store_loads_positive
    (actions : list Action) (storage : AsyncStorage) (st : State) :
  positive_fields (loadFareSettings storage) ->
  positive_fields (loadFareSettings (fst (fold_left act actions (storage, st)))).
Proof.
  revert storage st. induction actions as [| a actions IH];
    intros storage st Hpos; [exact Hpos |].
  cbn [fold_left].
  destruct (act (storage, st) a) as [storage' st'] eqn:E.
  apply IH. destruct a as [edited |]; cbn [act fst snd] in E.
  - set (st0 := {| settings := settings st; tempSettings := edited |}) in E.
    destruct (Qlt_le_dec 0 (baseFare edited)) as [Hf | Hf];
    [destruct (Qlt_le_dec 0 (baseDistance edited)) as [Hd | Hd];
     [destruct (Qlt_le_dec 0 (ratePerKm edited)) as [Hr | Hr];
      [destruct (Qlt_le_dec 10 (baseDistance edited)) as [Hm | Hm] | ] | ] | ].
    2: { rewrite (saveSettings_accepts storage st0) in E
           by (repeat split; assumption).
         cbn [fst] in E. injection E as <- <-.
         unfold loadFareSettings, getItem. rewrite lookup_insert_eq.
         repeat split; assumption. }
    all: rewrite (proj1 (saveSettings_rejects storage st0
           ltac:(intros (? & ? & ? & ?); cbn [tempSettings st0] in *; lra)))
           in E;
         injection E as <- <-; exact Hpos.
  - unfold performReset in E. injection E as <- <-.
    unfold loadFareSettings, getItem. rewrite lookup_insert_eq.
    repeat split; reflexivity.
Qed.

End SettingsEditor.

(** ** The distance tracker *)
Section DistanceTracker.
Import LocationTracking.
Open Scope R_scope.

Lemma js_lt_true (a b : jsnum) :
  js_lt a b = true <-> exists x y, a = Num x /\ b = Num y /\ x < y.
Proof.
  split.
  - destruct a as [x |], b as [y |]; cbn; try discriminate.
    destruct (Rlt_dec x y); [| discriminate]. eauto.
  - intros (x & y & -> & -> & H). cbn.
    destruct (Rlt_dec x y); [reflexivity | contradiction].
Qed.

(** The filter lets a delta through exactly when it is a number strictly
    between the platform's floor and one kilometre. *)
Lemma filter_passes (p : Platform) (distance : jsnum) :
  js_gt distance (Num (jitter_floor p)) && js_lt distance (Num 1) = true
  <-> exists d, distance = Num d /\ jitter_floor p < d < 1.
Proof.
  rewrite andb_true_iff. unfold js_gt. rewrite !js_lt_true. split.
  - intros [(x & y & Hx & Hy & Hlt) (x' & y' & Hx' & Hy' & Hlt')].
    subst distance. injection Hx as <-. injection Hx' as <-.
    injection Hy' as <-. exists y. split; [reflexivity | lra].
  - intros (d & -> & Hlo & Hhi). split; eauto 6.
Qed.

Lemma accepted_delta_Some (p : Platform) (last : option LocationObject)
    (location : LocationObject) (distance : jsnum) :
  accepted_delta p last location = Some distance <->
  exists lastLocation d,
    last = Some lastLocation /\ distance = Num d /\
    calculateDistance
      (latitude (coords lastLocation)) (longitude (coords lastLocation))
      (latitude (coords location)) (longitude (coords location)) = Num d /\
    jitter_floor p < d < 1.
Proof.
  unfold accepted_delta. destruct last as [lastLocation |].
  - remember (calculateDistance
        (latitude (coords lastLocation)) (longitude (coords lastLocation))
        (latitude (coords location)) (longitude (coords location)))
      as delta eqn:Hdelta.
    destruct (js_gt delta (Num (jitter_floor p)) && js_lt delta (Num 1))
      eqn:E.
    + apply filter_passes in E. destruct E as (d & Hd & Hr). split.
      * intros [= <-]. exists lastLocation, d.
        repeat split; try assumption; try lra; congruence.
      * intros (l & d' & [= <-] & -> & Hc & _). congruence.
    + split; [discriminate |].
      intros (l & d & [= <-] & -> & Hc & Hr).
      assert (Ht : js_gt delta (Num (jitter_floor p))
                   && js_lt delta (Num 1) = true)
        by (apply filter_passes; exists d; split; [congruence | exact Hr]).
      congruence.
  - split; [discriminate |]. intros (l & d & Hl & _). discriminate.
Qed.

(** Two fixes at the same coordinates are at haversine distance 0. *)
Lemma calculateDistance_same_point (lat lon : R) :
  calculateDistance lat lon lat lon = Num 0.
Proof.
  unfold calculateDistance. cbv zeta.
  replace ((lat - lat) * PI / 180 / 2) with 0 by lra.
  replace ((lon - lon) * PI / 180 / 2) with 0 by lra.
  rewrite sin_0.
  replace (0 * 0 + cos (lat * PI / 180) * cos (lat * PI / 180) * 0 * 0)
    with 0 by ring.
  unfold Math_sqrt.
  destruct (Rle_dec 0 0) as [_ | H]; [| exfalso; lra].
  destruct (Rle_dec 0 (1 - 0)) as [_ | H]; [| exfalso; lra].
  replace (1 - 0) with 1 by ring. rewrite sqrt_0, sqrt_1.
  unfold Math_atan2.
  destruct (Rlt_dec 0 1) as [_ | H]; [| exfalso; lra].
  replace (0 / 1) with 0 by field. rewrite atan_0.
  f_equal. ring.
Qed.

(** Along the equator the haversine distance is the Earth radius times the
    difference of longitude in radians. *)
Lemma calculateDistance_equator (lon1 lon2 : R) :
  0 <= lon2 - lon1 < 180 ->
  calculateDistance 0 lon1 0 lon2 = Num (6371 * ((lon2 - lon1) * PI / 180)).
Proof.
  intros [Hlo Hhi]. pose proof PI_RGT_0 as Hpi.
  unfold calculateDistance. cbv zeta.
  set (x := (lon2 - lon1) * PI / 180 / 2).
  assert (Hx : 0 <= x < PI / 2).
  { unfold x. split.
    - apply Rmult_le_pos; [| lra]. apply Rmult_le_pos; [| lra].
      apply Rmult_le_pos; lra.
    - assert ((lon2 - lon1) * PI < 180 * PI)
        by (apply Rmult_lt_compat_r; lra).
      lra. }
  replace ((0 - 0) * PI / 180 / 2) with 0 by lra.
  replace (0 * PI / 180) with 0 by lra.
  rewrite sin_0, cos_0.
  assert (Hs : 0 <= sin x) by (apply sin_ge_0; lra).
  assert (Hc : 0 < cos x) by (apply cos_gt_0; lra).
  replace (0 * 0 + 1 * 1 * sin x * sin x) with (sin x * sin x) by ring.
  assert (H1 : 1 - sin x * sin x = cos x * cos x).
  { pose proof (sin2_cos2 x) as H. unfold Rsqr in H. lra. }
  rewrite H1. unfold Math_sqrt.
  destruct (Rle_dec 0 (sin x * sin x)) as [_ | H]; [| exfalso; nra].
  destruct (Rle_dec 0 (cos x * cos x)) as [_ | H]; [| exfalso; nra].
  rewrite !sqrt_square by lra.
  unfold Math_atan2.
  destruct (Rlt_dec 0 (cos x)) as [_ | H]; [| contradiction].
  change (sin x / cos x) with (tan x).
  rewrite atan_tan by lra.
  f_equal. unfold x. field.
Qed.

Lemma PI_bounds : 3.13 < PI < 3.24.
Proof.
  pose proof (PI_2_3_7_ineq 0) as [Hlo Hhi].
  cbn [Nat.mul] in Hlo, Hhi.
  unfold sum_f_R0, tg_alt, PI_2_3_7_tg, Ratan_seq in Hlo, Hhi.
  cbn [Nat.mul Nat.add pow INR] in Hlo, Hhi.
  split; lra.
Qed.

(** 0.000018 degrees of longitude on the equator: two metres. *)
Lemma two_metres_on_equator :
  exists d, calculateDistance 0 0 0 (18 / 1000000) = Num d
            /\ 0.0019 < d < 0.0021.
Proof.
  eexists. split; [apply calculateDistance_equator; lra |].
  pose proof PI_bounds. lra.
Qed.

(** 45 degrees of longitude on the equator: about 5000 km. *)
Lemma five_thousand_km_on_equator :
  exists d, calculateDistance 0 0 0 45 = Num d /\ 4980 < d < 5170.
Proof.
  eexists. split; [apply calculateDistance_equator; lra |].
  pose proof PI_bounds. lra.
Qed.

Lemma watchCallback_accepts (p : Platform) (location last : LocationObject)
    (st : State) (d : R) :
  lastLocationRef st = Some last ->
  calculateDistance
    (latitude (coords last)) (longitude (coords last))
    (latitude (coords location)) (longitude (coords location)) = Num d ->
  jitter_floor p < d < 1 ->
  distanceTraveled (watchCallback p location st) =
  js_add (distanceTraveled st) (Num d).
Proof.
  intros Hl Hc Hr. unfold watchCallback. cbn [distanceTraveled].
  assert (Ha : accepted_delta p (lastLocationRef st) location = Some (Num d))
    by (apply accepted_delta_Some; exists last, d; auto).
  now rewrite Ha.
Qed.

Lemma watchCallback_rejects (p : Platform) (location last : LocationObject)
    (st : State) :
  lastLocationRef st = Some last ->
  (forall d,
     calculateDistance
       (latitude (coords last)) (longitude (coords last))
       (latitude (coords location)) (longitude (coords location)) = Num d ->
     ~ jitter_floor p < d < 1) ->
  distanceTraveled (watchCallback p location st) = distanceTraveled st.
Proof.
  intros Hl Hn. unfold watchCallback. cbn [distanceTraveled].
  destruct (accepted_delta p (lastLocationRef st) location) as [delta |] eqn:E;
    [| reflexivity].
  apply accepted_delta_Some in E.
  destruct E as (l & d & Hl' & -> & Hc & Hr).
  rewrite Hl in Hl'. injection Hl' as <-. now destruct (Hn d Hc).
Qed.

Lemma watchCallback_no_reference (p : Platform) (location : LocationObject)
    (st : State) :
  lastLocationRef st = None ->
  distanceTraveled (watchCallback p location st) = distanceTraveled st.
Proof.
  intros Hl. unfold watchCallback. cbn [distanceTraveled].
  now rewrite Hl.
Qed.

(** A delivered sample leaves the total as it is or adds a delta above the
    floor of the subscribed platform. *)
Lemma deliver_distance (location : LocationObject) (st : State) :
  distanceTraveled (deliver location st) = distanceTraveled st
  \/ exists p d, watcherRef st = Some p /\ jitter_floor p < d < 1 /\
       distanceTraveled (deliver location st) =
       js_add (distanceTraveled st) (Num d).
Proof.
  unfold deliver. destruct (watcherRef st) as [p |]; [| now left].
  unfold watchCallback. cbn [distanceTraveled].
  destruct (accepted_delta p (lastLocationRef st) location) as [delta |] eqn:E;
    [| now left].
  apply accepted_delta_Some in E.
  destruct E as (l & d & _ & -> & _ & Hr).
  right. exists p, d. auto.
Qed.

Lemma jitter_floor_positive (p : Platform) : 0 < jitter_floor p.
Proof. destruct p; cbn; lra. Qed.

(** C5, as stated, fails on the web path: its floor is one metre, so a
    delta of two metres is accepted and added. *)
Lemma web_adds_two_metre_delta :
  let st := startTracking Web (Some (at_ 0 0)) initial in
  distanceTraveled st = Num 0
  /\ (exists d, calculateDistance 0 0 0 (18 / 1000000) = Num d
                /\ 0.0019 < d < 0.0021)
  /\ finite_lt (Num 0.0019)
       (distanceTraveled (deliver (at_ 0 (18 / 1000000)) st)).
Proof.
  cbv zeta. split; [reflexivity |]. split; [exact two_metres_on_equator |].
  destruct two_metres_on_equator as (d & Hc & Hr).
  unfold deliver. cbn [startTracking startTracking_subscribed watcherRef].
  rewrite (watchCallback_accepts Web _ (at_ 0 0) _ d);
    [| reflexivity | exact Hc | cbn; lra].
  cbn. lra.
Qed.

(** C5, amended: a sample's haversine delta from the stored reference is
    added to the total exactly when it lies strictly between the jitter floor
    (0.01 km native, 0.001 km web) and 1 km; the reference becomes the new
    sample whether or not the delta is added.  A delta of 0 adds nothing, a
    teleport of about 5000 km adds nothing and still replaces the reference,
    and a delta of 2 m adds nothing under the native floor. *)
Theorem sample_filter_and_reference
    (p : Platform) (location : LocationObject) (st : State) :
  lastLocationRef (watchCallback p location st) = Some location
  /\ (forall last d,
        lastLocationRef st = Some last ->
        calculateDistance
          (latitude (coords last)) (longitude (coords last))
          (latitude (coords location)) (longitude (coords location)) = Num d ->
        jitter_floor p < d < 1 ->
        distanceTraveled (watchCallback p location st) =
        js_add (distanceTraveled st) (Num d))
  /\ (forall last,
        lastLocationRef st = Some last ->
        (forall d,
           calculateDistance
             (latitude (coords last)) (longitude (coords last))
             (latitude (coords location)) (longitude (coords location))
           = Num d ->
           ~ jitter_floor p < d < 1) ->
        distanceTraveled (watchCallback p location st) = distanceTraveled st)
  /\ (lastLocationRef st = None ->
      distanceTraveled (watchCallback p location st) = distanceTraveled st)
  /\ jitter_floor Native = 0.01 /\ jitter_floor Web = 0.001
  /\ distanceTraveled (watchCallback p location (watchCallback p location st))
     = distanceTraveled (watchCallback p location st)
  /\ (let started := startTracking Native (Some (at_ 0 0)) st in
      distanceTraveled (deliver (at_ 0 (18 / 1000000)) started) = Num 0)
  /\ (let started := startTracking p (Some (at_ 0 0)) st in
      distanceTraveled (deliver (at_ 0 45) started) = Num 0
      /\ lastLocationRef (deliver (at_ 0 45) started) = Some (at_ 0 45)).
Proof.
  split; [reflexivity |].
  split; [intros last d; apply watchCallback_accepts |].
  split; [intros last; apply watchCallback_rejects |].
  split; [apply watchCallback_no_reference |].
  split; [reflexivity |]. split; [reflexivity |].
  split; [| split; [| split; [| reflexivity]]].
  - apply (watchCallback_rejects p location location); [reflexivity |].
    intros d Hc. rewrite calculateDistance_same_point in Hc.
    injection Hc as <-. pose proof (jitter_floor_positive p). lra.
  - cbv zeta. unfold deliver. cbn [startTracking startTracking_subscribed watcherRef].
    rewrite (watchCallback_rejects Native _ (at_ 0 0)); [reflexivity .. |].
    intros d Hc. destruct two_metres_on_equator as (d' & Hc' & Hr).
    cbn [at_ coords latitude longitude] in Hc.
    rewrite Hc' in Hc. injection Hc as <-. cbn. lra.
  - cbv zeta. unfold deliver. cbn [startTracking startTracking_subscribed watcherRef].
    rewrite (watchCallback_rejects p _ (at_ 0 0)); [reflexivity .. |].
    intros d Hc. destruct five_thousand_km_on_equator as (d' & Hc' & Hr).
    cbn [at_ coords latitude longitude] in Hc.
    rewrite Hc' in Hc. injection Hc as <-. lra.
Qed.

(** A callback leaves the total as it is or adds a delta above the floor of
    its platform. *)
Lemma watchCallback_distance (p : Platform) (location : LocationObject)
    (st : State) :
  distanceTraveled (watchCallback p location st) = distanceTraveled st
  \/ exists d, jitter_floor p < d < 1 /\
       distanceTraveled (watchCallback p location st) =
       js_add (distanceTraveled st) (Num d).
Proof.
  unfold watchCallback. cbn [distanceTraveled].
  destruct (accepted_delta p (lastLocationRef st) location) as [delta |] eqn:E;
    [| now left].
  apply accepted_delta_Some in E.
  destruct E as (l & d & _ & -> & _ & Hr).
  right. exists d. auto.
Qed.

Lemma watchCallback_grows (p : Platform) (location : LocationObject)
    (st : State) :
  total_ok st ->
  finite_le (distanceTraveled st)
            (distanceTraveled (watchCallback p location st)).
Proof.
  unfold total_ok. intros H0.
  destruct (distanceTraveled st) as [x |] eqn:Ex; [| contradiction].
  destruct (watchCallback_distance p location st) as [-> | (d & Hr & ->)];
    rewrite Ex; cbn; [lra |].
  pose proof (jitter_floor_positive p). lra.
Qed.

Lemma deliver_grows (location : LocationObject) (st : State) :
  total_ok st ->
  finite_le (distanceTraveled st) (distanceTraveled (deliver location st))
  /\ (distanceTraveled (deliver location st) <> distanceTraveled st ->
      finite_lt (distanceTraveled st)
                (distanceTraveled (deliver location st))).
Proof.
  unfold total_ok. intros H0.
  destruct (distanceTraveled st) as [x |] eqn:Ex; [| contradiction].
  destruct (deliver_distance location st) as [-> | (p & d & _ & Hr & ->)];
    rewrite Ex.
  - split; [cbn; lra | congruence].
  - pose proof (jitter_floor_positive p). cbn. split; [| intros _]; lra.
Qed.

Lemma finite_le_refl (a : jsnum) :
  finite_le (Num 0) a -> finite_le a a.
Proof.
  destruct a; cbn; [lra | auto].
Qed.

(** An event that is not zeroing does not decrease the total. *)
Lemma step_grows (st : State) (e : Event) :
  total_ok st -> zeroing e = false ->
  finite_le (distanceTraveled st) (distanceTraveled (step st e)).
Proof.
  intros H0 Hz.
  destruct e as [p [first |] | location | | | first | p | | | i location];
    cbn [zeroing] in Hz; try discriminate; cbn [step];
    try exact (finite_le_refl (distanceTraveled st) H0).
  - now apply deliver_grows.
  - unfold deliver_leaked. destruct (nth_error (leaked st) i) as [p |].
    + now apply watchCallback_grows.
    + exact (finite_le_refl (distanceTraveled st) H0).
Qed.

Lemma step_zeroes (st : State) (e : Event) :
  zeroing e = true -> distanceTraveled (step st e) = Num 0.
Proof.
  destruct e as [p [first |] | location | | | first | p | | | i location];
    cbn [zeroing]; try discriminate; reflexivity.
Qed.

Lemma step_total_ok (st : State) (e : Event) :
  total_ok st -> total_ok (step st e).
Proof.
  intros H0. destruct (zeroing e) eqn:Hz.
  - unfold total_ok. rewrite step_zeroes by assumption. cbn. lra.
  - pose proof (step_grows st e H0 Hz) as Hle.
    unfold total_ok in *.
    destruct (distanceTraveled st), (distanceTraveled (step st e));
      cbn in *; try contradiction; lra.
Qed.

Lemma run_total_ok (events : list Event) (st : State) :
  total_ok st -> total_ok (run st events).
Proof.
  revert st. induction events as [| e events IH]; intros st H0; [exact H0 |].
  apply IH, step_total_ok, H0.
Qed.

Lemma run_grows (events : list Event) (st : State) :
  total_ok st -> forallb (fun e => negb (zeroing e)) events = true ->
  finite_le (distanceTraveled st) (distanceTraveled (run st events)).
Proof.
  revert st. induction events as [| e events IH]; intros st H0 Hall.
  - exact (finite_le_refl (distanceTraveled st) H0).
  - cbn [forallb] in Hall. apply andb_true_iff in Hall.
    destruct Hall as [He Hrest]. apply negb_true_iff in He.
    cbn [run fold_left].
    pose proof (step_grows st e H0 He) as Hle.
    pose proof (IH (step st e) (step_total_ok st e H0) Hrest) as Hle'.
    unfold run in Hle'.
    destruct (distanceTraveled st), (distanceTraveled (step st e)),
             (distanceTraveled (fold_left step events (step st e)));
      cbn in *; try contradiction; lra.
Qed.

Lemma samples_grow (samples : list LocationObject) (st : State) :
  total_ok st ->
  finite_le (distanceTraveled st)
            (distanceTraveled (run st (map Sample samples))).
Proof.
  intros H0. apply run_grows; [exact H0 |].
  induction samples as [| location samples IH]; [reflexivity | exact IH].
Qed.

(** C7: the cumulative distance starts at 0, on mount and as soon as a
    start has its first fix; a sample whose delta passes the filter adds
    exactly that delta, which is strictly positive; no event other than a
    reset or such a start decreases it, be it a sample through any
    subscription, a stop, a start that fails, or the registration of the
    watcher; so along every sequence of events it is a non-negative number,
    and along every sequence without a reset or a start it is
    non-decreasing. *)
Theorem cumulative_distance_invariant
    (events later : list Event) (samples : list LocationObject)
    (location : LocationObject) :
  let st := run initial events in
  distanceTraveled initial = Num 0
  /\ (forall e s, zeroing e = true -> distanceTraveled (step s e) = Num 0)
  /\ finite_le (Num 0) (distanceTraveled st)
  /\ (forall p last d,
        watcherRef st = Some p -> lastLocationRef st = Some last ->
        calculateDistance
          (latitude (coords last)) (longitude (coords last))
          (latitude (coords location)) (longitude (coords location)) = Num d ->
        jitter_floor p < d < 1 ->
        distanceTraveled (deliver location st) =
          js_add (distanceTraveled st) (Num d)
        /\ 0 < d
        /\ finite_lt (distanceTraveled st)
                     (distanceTraveled (deliver location st)))
  /\ (forall e, zeroing e = false ->
        finite_le (distanceTraveled st) (distanceTraveled (step st e)))
  /\ (forallb (fun e => negb (zeroing e)) later = true ->
      finite_le (distanceTraveled st) (distanceTraveled (run st later)))
  /\ finite_le (distanceTraveled st)
               (distanceTraveled (run st (map Sample samples))).
Proof.
  cbv zeta.
  assert (H0 : total_ok (run initial events)).
  { apply run_total_ok. unfold total_ok. cbn. lra. }
  split; [reflexivity |].
  split; [intros e s; apply step_zeroes |].
  split; [exact H0 |].
  split; [| split; [| split]].
  - intros p last d Hw Hl Hc Hr.
    assert (Hadd : distanceTraveled (deliver location (run initial events)) =
                   js_add (distanceTraveled (run initial events)) (Num d)).
    { unfold deliver. rewrite Hw.
      now apply (watchCallback_accepts p location last). }
    pose proof (jitter_floor_positive p) as Hf.
    split; [exact Hadd |]. split; [lra |].
    rewrite Hadd. unfold total_ok in H0.
    destruct (distanceTraveled (run initial events));
      cbn in *; [lra | contradiction].
  - intros e Hz. now apply step_grows.
  - intros Hall. now apply run_grows.
  - apply samples_grow, H0.
Qed.

End DistanceTracker.

(** ** Reset *)
Section Reset.

(** C9: reset is idempotent.  [resetMeter] zeroes distance and fare and
    clears the night flag, [resetTracking] zeroes the cumulative distance
    and clears the current location and the last-sample reference; a second
    call of either changes nothing, and neither does a second press of the
    meter screen's reset button. *)
Theorem reset_idempotent
    (m : FareCalculator.State) (s : LocationTracking.State) :
  FareCalculator.resetMeter (FareCalculator.resetMeter m)
    = FareCalculator.resetMeter m
  /\ FareCalculator.distance (FareCalculator.resetMeter m) = Num 0%Q
  /\ FareCalculator.fare (FareCalculator.resetMeter m) = Num 0%Q
  /\ FareCalculator.isNight (FareCalculator.resetMeter m) = false
  /\ LocationTracking.resetTracking (LocationTracking.resetTracking s)
     = LocationTracking.resetTracking s
  /\ LocationTracking.distanceTraveled (LocationTracking.resetTracking s)
     = Num 0%R
  /\ LocationTracking.lastLocationRef (LocationTracking.resetTracking s)
     = None
  /\ LocationTracking.currentLocation (LocationTracking.resetTracking s)
     = None
  /\ (forall screen,
       MeterScreen.handleResetMeter (MeterScreen.handleResetMeter screen)
       = MeterScreen.handleResetMeter screen).
Proof. repeat split. Qed.

End Reset.

(** * Further properties of the code *)

(** ** The fare engine, continued *)
Section FareEngineBounds.
Import FareCalculator.
Open Scope Q_scope.







End FareEngineBounds.

(** ** The trip planner's breakdown and the editor's preview *)
Section BreakdownAndPreview.
Import FareCalculator SettingsScreen TripPlanner SettingsPreview.
Open Scope Q_scope.

(** The rows of the trip planner's breakdown reconcile with its total: the
    subtotal plus the night surcharge, rounded once, is the fare the engine
    returns for the same distance, night flag and tariff, a [NaN] distance
    included. *)
Theorem breakdown_reconciles_with_fare
    (st : FareCalculator.State) (t : FareSettings)
    (d : jsnum) (n : bool) :
  let b := calculateBreakdownValues t d n in
  Math_round (js_add (subtotal b) (nightSurcharge b)) =
    _calculateFareInternal st d n (Some t)
  /\ subtotal b = js_add (baseFareAmount b) (additionalFareAmount b)
  /\ (forall storage,
       Math_round
         (js_add
            (subtotal (calculateBreakdownValues (loadFareSettings storage) d n))
            (nightSurcharge
               (calculateBreakdownValues (loadFareSettings storage) d n)))
       = calculateFareForDistance storage st d n).
Proof.
  assert (Hmain : forall t',
    Math_round
      (js_add (subtotal (calculateBreakdownValues t' d n))
              (nightSurcharge (calculateBreakdownValues t' d n)))
    = _calculateFareInternal st d n (Some t')).
  { intros t'. destruct d as [q |].
    - rewrite fare_of_finite. unfold calculateBreakdownValues.
      cbn [subtotal nightSurcharge Math_max js_sub js_mul js_add].
      destruct n; cbn [js_mul js_add Math_round]; do 2 f_equal;
        apply Qfloor_comp; unfold computeFare_unrounded; ring.
    - rewrite fare_of_NaN. destruct n; reflexivity. }
  cbv zeta. split; [apply Hmain |]. split; [reflexivity |].
  intros storage. apply Hmain.
Qed.

(** For a tariff with positive fields and a finite distance every row of
    the breakdown is a number that is not negative; the extra distance is
    zero up to the base distance and the excess beyond it; the surcharge is
    zero by day and half the subtotal by night. *)
Theorem breakdown_rows_not_negative
    (t : FareSettings) (d : Q) (n : bool) :
  positive_fields t ->
  let b := calculateBreakdownValues t (Num d) n in
  exists extra cost sub sur : Q,
    additionalDistance b = Num extra /\ additionalFareAmount b = Num cost
    /\ subtotal b = Num sub /\ nightSurcharge b = Num sur
    /\ 0 <= extra /\ 0 <= cost /\ 0 < sub /\ 0 <= sur
    /\ (d <= baseDistance t -> extra == 0)
    /\ (baseDistance t < d -> extra == d - baseDistance t)
    /\ sur == (if n then 0.5 * sub else 0).
Proof.
  intros (Hf & Hb & Hr). cbv zeta. unfold calculateBreakdownValues.
  cbn [additionalDistance additionalFareAmount subtotal nightSurcharge
       Math_max js_sub js_mul js_add].
  set (extra := Qmax 0 (d - baseDistance t)).
  assert (He : 0 <= extra) by apply Q.le_max_l.
  assert (Hc : 0 <= extra * ratePerKm t)
    by (apply Qmult_le_0_compat; lra).
  exists extra, (extra * ratePerKm t), (baseFare t + extra * ratePerKm t).
  destruct n; cbn [js_mul].
  - exists ((baseFare t + extra * ratePerKm t) * 0.5).
    repeat split; try reflexivity; try lra.
    + intros H. unfold extra. apply Q.max_l. lra.
    + intros H. unfold extra. apply Q.max_r. lra.
  - exists 0.
    repeat split; try reflexivity; try lra.
    + intros H. unfold extra. apply Q.max_l. lra.
    + intros H. unfold extra. apply Q.max_r. lra.
Qed.

Lemma breakdown_rows_not_negative_witness :
  positive_fields FareCalculator.DEFAULT_SETTINGS /\
  exists extra cost sub sur : Q,
    additionalDistance
      (calculateBreakdownValues FareCalculator.DEFAULT_SETTINGS (Num 5) true)
      = Num extra
    /\ additionalFareAmount
      (calculateBreakdownValues FareCalculator.DEFAULT_SETTINGS (Num 5) true)
      = Num cost
    /\ subtotal
      (calculateBreakdownValues FareCalculator.DEFAULT_SETTINGS (Num 5) true)
      = Num sub
    /\ nightSurcharge
      (calculateBreakdownValues FareCalculator.DEFAULT_SETTINGS (Num 5) true)
      = Num sur
    /\ 0 <= extra /\ 0 <= cost /\ 0 < sub /\ 0 <= sur
    /\ (5 <= baseDistance FareCalculator.DEFAULT_SETTINGS -> extra == 0)
    /\ (baseDistance FareCalculator.DEFAULT_SETTINGS < 5 ->
        extra == 5 - baseDistance FareCalculator.DEFAULT_SETTINGS)
    /\ sur == 0.5 * sub.
Proof.
  assert (Hp : positive_fields FareCalculator.DEFAULT_SETTINGS)
    by (repeat split; reflexivity).
  split; [exact Hp |].
  exact (breakdown_rows_not_negative
           FareCalculator.DEFAULT_SETTINGS 5 true Hp).
Defined.


End BreakdownAndPreview.

(** ** The settings editor, continued *)
Section SettingsEditorFlows.
Import FareCalculator SettingsScreen.
Open Scope Q_scope.

Lemma act_storage (w : AsyncStorage * State) (a : Action) :
  fst (act w a) = fst w
  \/ exists t, acceptable t
               /\ fst (act w a) = <["fareSettings" := Parsed t]> (fst w).
Proof.
  destruct w as [storage st], a as [edited |]; cbn [act fst snd].
  - set (st0 := {| settings := settings st; tempSettings := edited |}).
    destruct (Qlt_le_dec 0 (baseFare edited)) as [Hf | Hf];
    [destruct (Qlt_le_dec 0 (baseDistance edited)) as [Hd | Hd];
     [destruct (Qlt_le_dec 0 (ratePerKm edited)) as [Hr | Hr];
      [destruct (Qlt_le_dec 10 (baseDistance edited)) as [Hm | Hm] | ] | ] | ].
    2: { right. exists edited. split; [repeat split; assumption |].
         rewrite (saveSettings_accepts storage st0)
           by (repeat split; assumption).
         reflexivity. }
    all: left;
         rewrite (proj1 (saveSettings_rejects storage st0
           ltac:(intros (? & ? & ? & ?); cbn [tempSettings st0] in *; lra)));
         reflexivity.
  - right. exists DEFAULT_SETTINGS. split; [| reflexivity].
    repeat split; try reflexivity. vm_compute. discriminate.
Qed.

(** The editor writes one key only: after any sequence of saves and resets
    every other key of the store reads as before. *)
Theorem editor_leaves_other_keys
    (actions : list Action) (storage : AsyncStorage) (st : State)
    (key : string) :
  key <> "fareSettings" ->
  getItem key (fst (fold_left act actions (storage, st)))
  = getItem key storage.
Proof.
  intros Hk. revert storage st.
  induction actions as [| a actions IH]; intros storage st; [reflexivity |].
  cbn [fold_left].
  destruct (act (storage, st) a) as [storage' st'] eqn:E.
  rewrite IH.
  destruct (act_storage (storage, st) a) as [H | (t & _ & H)];
    rewrite E in H; cbn [fst] in H; subst storage'; [reflexivity |].
  unfold getItem. now rewrite lookup_insert_ne.
Qed.

Lemma editor_leaves_other_keys_witness :
  "theme" <> "fareSettings" /\
  getItem "theme"
    (fst (fold_left act [Save DEFAULT_SETTINGS; ResetToDefaults]
            (∅, {| settings := DEFAULT_SETTINGS;
                   tempSettings := DEFAULT_SETTINGS |})))
  = getItem "theme" ∅.
Proof.
  assert (Hk : "theme" <> "fareSettings") by discriminate.
  split; [exact Hk |].
  exact (editor_leaves_other_keys [Save DEFAULT_SETTINGS; ResetToDefaults]
           ∅ _ "theme" Hk).
Defined.

(** A field whose text does not parse, or parses to zero or less, blocks
    the save: whichever of the three fields it is, the store and the saved
    settings stay as they were and the first dialog is raised. *)
Theorem blank_field_blocks_save
    (storage : AsyncStorage) (st : State) (parsed : jsnum) :
  or_zero parsed <= 0 ->
  saveSettings storage (updateBaseFare parsed st)
    = (storage, updateBaseFare parsed st, AllValuesMustBePositive)
  /\ saveSettings storage (updateBaseDistance parsed st)
    = (storage, updateBaseDistance parsed st, AllValuesMustBePositive)
  /\ saveSettings storage (updateRatePerKm parsed st)
    = (storage, updateRatePerKm parsed st, AllValuesMustBePositive)
  /\ or_zero NaN <= 0.
Proof.
  intros H. apply Qle_bool_iff in H.
  repeat split; unfold saveSettings; cbv zeta;
    cbn [updateBaseFare updateBaseDistance updateRatePerKm tempSettings
         baseFare baseDistance ratePerKm];
    rewrite ?H, ?orb_true_r; try reflexivity.
  vm_compute. discriminate.
Qed.

Lemma blank_field_blocks_save_witness :
  or_zero NaN <= 0 /\
  saveSettings ∅
    (updateBaseFare NaN
       {| settings := DEFAULT_SETTINGS; tempSettings := DEFAULT_SETTINGS |})
  = (∅,
     updateBaseFare NaN
       {| settings := DEFAULT_SETTINGS; tempSettings := DEFAULT_SETTINGS |},
     AllValuesMustBePositive).
Proof.
  assert (H : or_zero NaN <= 0) by (vm_compute; discriminate).
  split; [exact H |].
  exact (proj1 (blank_field_blocks_save ∅
                  {| settings := DEFAULT_SETTINGS;
                     tempSettings := DEFAULT_SETTINGS |} NaN H)).
Defined.

End SettingsEditorFlows.

(** ** The haversine distance *)
Section Haversine.
Import LocationTracking SampleSequences.
Open Scope R_scope.

(** The haversine distance does not depend on the direction of travel. *)
Theorem calculateDistance_symmetric (lat1 lon1 lat2 lon2 : R) :
  calculateDistance lat1 lon1 lat2 lon2
  = calculateDistance lat2 lon2 lat1 lon1.
Proof.
  unfold calculateDistance. cbv zeta.
  replace ((lat1 - lat2) * PI / 180 / 2)
    with (- ((lat2 - lat1) * PI / 180 / 2)) by field.
  replace ((lon1 - lon2) * PI / 180 / 2)
    with (- ((lon2 - lon1) * PI / 180 / 2)) by field.
  rewrite !sin_neg.
  set (sx := sin ((lat2 - lat1) * PI / 180 / 2)).
  set (sy := sin ((lon2 - lon1) * PI / 180 / 2)).
  set (c1 := cos (lat1 * PI / 180)). set (c2 := cos (lat2 * PI / 180)).
  replace (- sx * - sx + c2 * c1 * - sy * - sy)
    with (sx * sx + c1 * c2 * sy * sy) by ring.
  reflexivity.
Qed.

End Haversine.

(** ** Sessions of the tracker and of the meter screen *)
Section Sessions.
Import LocationTracking SampleSequences.
Open Scope R_scope.

Lemma deliver_unsubscribed (location : LocationObject) (st : State) :
  watcherRef st = None -> deliver location st = st.
Proof. intros H. unfold deliver. now rewrite H. Qed.

Lemma deliver_leaked_none (i : nat) (location : LocationObject) (st : State) :
  leaked st = [] -> deliver_leaked i location st = st.
Proof.
  intros H. unfold deliver_leaked. rewrite H. now destruct i.
Qed.

(** When no earlier subscription has leaked and no start is pending, stop
    freezes the tracker: once the watcher held in the ref is removed no
    sample changes any cell, through whichever subscription the position
    source sends it; stopping twice is stopping once.  A start on top of a
    running watcher does leak the first subscription: after start, start
    and stop, a sample 0.001 degrees away that arrives through it still
    raises the total.  And a stop that comes while a start awaits its
    watcher removes nothing: the watcher is registered afterwards, and its
    samples raise the total of a tracker that reports it is not tracking. *)
Theorem stop_freezes_unless_leaked
    (events : list Event) (st : State) :
  leaked st = [] -> forallb delivery events = true ->
  run (stopTracking st) events = stopTracking st
  /\ stopTracking (stopTracking st) = stopTracking st
  /\ (let twice := run initial [Start Native (Some (at_ 0 0));
                                Start Native (Some (at_ 0 0)); Stop] in
      watcherRef twice = None /\ leaked twice = [Native]
      /\ finite_lt (distanceTraveled twice)
           (distanceTraveled
              (step twice (LeakedSample 0 (at_ 0 (1 / 1000))))))
  /\ (let late := run initial [Located (at_ 0 0); Stop; Subscribed Native] in
      watcherRef late = Some Native /\ isTracking late = false
      /\ finite_lt (distanceTraveled late)
           (distanceTraveled (step late (Sample (at_ 0 (1 / 1000)))))).
Proof.
  intros Hl Hall. split; [| split; [reflexivity | split]].
  - induction events as [| e events IH]; [reflexivity |].
    cbn [forallb] in Hall. apply andb_true_iff in Hall.
    destruct Hall as [He Hrest]. cbn [run fold_left].
    assert (Hs : step (stopTracking st) e = stopTracking st).
    { destruct e; cbn [delivery] in He; try discriminate; cbn [step].
      - now apply deliver_unsubscribed.
      - now apply deliver_leaked_none. }
    rewrite Hs. exact (IH Hrest).
  - cbv zeta. split; [reflexivity |]. split; [reflexivity |].
    cbn [run fold_left step startTracking].
    unfold deliver_leaked. cbn [stopTracking leaked startTracking_subscribed
      startTracking_located watcherRef nth_error].
    rewrite (watchCallback_accepts Native _ (at_ 0 0) _
               (6371 * ((1 / 1000 - 0) * PI / 180))).
    + cbn. pose proof PI_bounds. lra.
    + reflexivity.
    + cbn [at_ coords latitude longitude].
      apply calculateDistance_equator. lra.
    + pose proof PI_bounds. cbn. lra.
  - cbv zeta. split; [reflexivity |]. split; [reflexivity |].
    cbn [run fold_left step].
    unfold deliver. cbn [stopTracking leaked startTracking_subscribed
      startTracking_located watcherRef].
    rewrite (watchCallback_accepts Native _ (at_ 0 0) _
               (6371 * ((1 / 1000 - 0) * PI / 180))).
    + cbn. pose proof PI_bounds. lra.
    + reflexivity.
    + cbn [at_ coords latitude longitude].
      apply calculateDistance_equator. lra.
    + pose proof PI_bounds. cbn. lra.
Qed.

Lemma stop_freezes_unless_leaked_witness :
  let st := startTracking Web (Some (at_ 0 0)) initial in
  let events := [Sample (at_ 0 (1 / 1000)); LeakedSample 0 (at_ 0 0)] in
  leaked st = [] /\ forallb delivery events = true
  /\ run (stopTracking st) events = stopTracking st.
Proof.
  cbv zeta. split; [reflexivity |]. split; [reflexivity |].
  exact (proj1 (stop_freezes_unless_leaked
                  [Sample (at_ 0 (1 / 1000)); LeakedSample 0 (at_ 0 0)]
                  (startTracking Web (Some (at_ 0 0)) initial)
                  eq_refl eq_refl)).
Defined.

Lemma finite_le_trans (a b c : jsnum) :
  finite_le a b -> finite_le b c -> finite_le a c.
Proof.
  destruct a, b, c; cbn; try contradiction; lra.
Qed.

(** The ceiling bounds the growth of the total: [n] samples add less than
    one kilometre each, so at most [n] kilometres together. *)
Theorem samples_add_at_most_one_km_each
    (samples : list LocationObject) (st : State) :
  total_ok st ->
  finite_le (distanceTraveled (run st (map Sample samples)))
            (js_add (distanceTraveled st) (Num (INR (length samples)))).
Proof.
  revert st. induction samples as [| location samples IH]; intros st H0.
  - unfold total_ok in H0. cbn [map run fold_left length INR].
    destruct (distanceTraveled st); cbn in *; [lra | contradiction].
  - cbn [map run fold_left step].
    pose proof (IH (deliver location st)
                  (step_total_ok st (Sample location) H0)) as Hrest.
    unfold run in Hrest.
    eapply finite_le_trans; [exact Hrest |].
    rewrite length_cons, S_INR.
    unfold total_ok in H0.
    destruct (deliver_distance location st)
      as [-> | (p & d & _ & Hr & ->)];
      destruct (distanceTraveled st); cbn in *; try contradiction; lra.
Qed.

Lemma samples_add_at_most_one_km_each_witness :
  total_ok (startTracking Web (Some (at_ 0 0)) initial) /\
  finite_le
    (distanceTraveled
       (run (startTracking Web (Some (at_ 0 0)) initial)
            (map Sample [at_ 0 (18 / 1000000); at_ 0 45])))
    (js_add (distanceTraveled (startTracking Web (Some (at_ 0 0)) initial))
            (Num (INR 2))).
Proof.
  assert (H : total_ok (startTracking Web (Some (at_ 0 0)) initial))
    by (unfold total_ok; cbn; lra).
  split; [exact H |].
  exact (samples_add_at_most_one_km_each
           [at_ 0 (18 / 1000000); at_ 0 45] _ H).
Defined.

Lemma last_cons_default {A : Type} (x d : A) (l : list A) :
  List.last (x :: l) d = List.last l x.
Proof.
  revert x d. induction l as [| y l IH]; intros x d; [reflexivity |].
  change (List.last (x :: y :: l) d) with (List.last (y :: l) d).
  now rewrite !IH.
Qed.

(** Movement in steps the filter rejects is lost for good: because a
    rejected sample still becomes the reference, a run of samples each
    rejected against the one before it leaves the total where it was,
    however far the last one is from the first, and the reference ends on
    the last sample. *)
Theorem rejected_steps_never_accumulate
    (p : Platform) (last : LocationObject)
    (samples : list LocationObject) (st : State) :
  watcherRef st = Some p -> lastLocationRef st = Some last ->
  all_rejected p last samples ->
  distanceTraveled (run st (map Sample samples)) = distanceTraveled st
  /\ lastLocationRef (run st (map Sample samples))
     = Some (List.last samples last).
Proof.
  revert last st. induction samples as [| location samples IH];
    intros last st Hw Hl Hrej.
  - split; [reflexivity | exact Hl].
  - destruct Hrej as [Hnone Hrest].
    cbn [map run fold_left step].
    assert (Hd : deliver location st = watchCallback p location st)
      by (unfold deliver; now rewrite Hw).
    destruct (IH location (deliver location st)) as [IHd IHl].
    + rewrite Hd. exact Hw.
    + rewrite Hd. reflexivity.
    + exact Hrest.
    + unfold run in IHd, IHl. rewrite IHd, IHl. split.
      * rewrite Hd. unfold watchCallback. cbn [distanceTraveled].
        now rewrite Hl, Hnone.
      * now rewrite last_cons_default.
Qed.

Lemma equator_step_rejected_natively (lon : R) :
  accepted_delta Native (Some (at_ 0 lon)) (at_ 0 (lon + 18 / 1000000))
  = None.
Proof.
  destruct (accepted_delta Native (Some (at_ 0 lon))
              (at_ 0 (lon + 18 / 1000000))) as [delta |] eqn:E;
    [| reflexivity].
  apply accepted_delta_Some in E.
  destruct E as (l & d & [= <-] & _ & Hc & Hr).
  cbn [at_ coords latitude longitude] in Hc.
  rewrite calculateDistance_equator in Hc by lra.
  injection Hc as <-. pose proof PI_bounds. cbn in Hr. exfalso. lra.
Qed.

Lemma rejected_steps_never_accumulate_witness :
  let st := startTracking Native (Some (at_ 0 0)) initial in
  let walk := [at_ 0 (0 + 18 / 1000000);
               at_ 0 (0 + 18 / 1000000 + 18 / 1000000);
               at_ 0 (0 + 18 / 1000000 + 18 / 1000000 + 18 / 1000000)] in
  watcherRef st = Some Native /\ lastLocationRef st = Some (at_ 0 0)
  /\ all_rejected Native (at_ 0 0) walk
  /\ distanceTraveled (run st (map Sample walk)) = Num 0.
Proof.
  cbv zeta.
  assert (Hrej : all_rejected Native (at_ 0 0)
            [at_ 0 (0 + 18 / 1000000);
             at_ 0 (0 + 18 / 1000000 + 18 / 1000000);
             at_ 0 (0 + 18 / 1000000 + 18 / 1000000 + 18 / 1000000)]).
  { cbn [all_rejected].
    repeat split; apply equator_step_rejected_natively. }
  split; [reflexivity |]. split; [reflexivity |]. split; [exact Hrej |].
  exact (proj1 (rejected_steps_never_accumulate Native (at_ 0 0) _
                  (startTracking Native (Some (at_ 0 0)) initial)
                  eq_refl eq_refl Hrej)).
Defined.

(** The elapsed time counts the ticks of a running meter one by one and
    ignores them when the meter is not running; after the stop button no
    tick changes the screen. *)
Theorem elapsed_time_counts_running_ticks
    (n : nat) (st : MeterScreen.State) :
  MeterScreen.elapsedTime (Nat.iter n MeterScreen.tick st)
  = (if MeterScreen.isRunning st
     then MeterScreen.elapsedTime st + Z.of_nat n
     else MeterScreen.elapsedTime st)%Z
  /\ MeterScreen.isRunning (Nat.iter n MeterScreen.tick st)
     = MeterScreen.isRunning st
  /\ Nat.iter n MeterScreen.tick (MeterScreen.handleStopMeter st)
     = MeterScreen.handleStopMeter st
  /\ Nat.iter n MeterScreen.tick (MeterScreen.handleResetMeter st)
     = MeterScreen.handleResetMeter st.
Proof.
  assert (Hrun : forall k,
    MeterScreen.isRunning (Nat.iter k MeterScreen.tick st)
    = MeterScreen.isRunning st).
  { induction k as [| k IH]; [reflexivity |].
    rewrite Nat.iter_succ. exact IH. }
  assert (Hidle : forall s k, MeterScreen.tick s = s ->
                  Nat.iter k MeterScreen.tick s = s).
  { intros s k Hs. induction k as [| k IH]; [reflexivity |].
    rewrite Nat.iter_succ, IH. exact Hs. }
  split; [| split; [apply Hrun | split; apply Hidle; reflexivity]].
  induction n as [| n IH].
  - cbn [Nat.iter nat_rect]. destruct (MeterScreen.isRunning st); lia.
  - rewrite Nat.iter_succ. unfold MeterScreen.tick at 1.
    cbn [MeterScreen.elapsedTime]. rewrite Hrun, IH.
    destruct (MeterScreen.isRunning st); lia.
Qed.

End Sessions.

(** ** The elapsed-time display *)
Section ElapsedTimeDisplay.
Import MeterDisplay.
Open Scope Z_scope.

Lemma string_length_app (s1 s2 : string) :
  String.length (s1 +:+ s2) = (String.length s1 + String.length s2)%nat.
Proof.
  induction s1 as [| c s1 IH]; [reflexivity |].
  simpl. f_equal. exact IH.
Qed.

Lemma string_of_list_ascii_length (l : list Ascii.ascii) :
  String.length (String.string_of_list_ascii l) = length l.
Proof.
  induction l as [| c l IH]; [reflexivity |].
  simpl. f_equal. exact IH.
Qed.

Lemma padStart_length (n : nat) (c : Ascii.ascii) (s : string) :
  String.length (padStart n c s) = Nat.max n (String.length s).
Proof.
  unfold padStart.
  rewrite string_length_app, string_of_list_ascii_length, repeat_length.
  lia.
Qed.

(** A whole number below one hundred prints in one or two characters. *)
Lemma pretty_below_hundred (z : Z) :
  0 <= z < 100 ->
  (1 <= String.length (pretty z) <= 2)%nat.
Proof.
  intros Hz.
  assert (Hall : forallb
            (fun n => let len := String.length (pretty (Z.of_nat n)) in
                      (1 <=? len)%nat && (len <=? 2)%nat)
            (seq 0 100) = true) by (vm_compute; reflexivity).
  rewrite forallb_forall in Hall.
  specialize (Hall (Z.to_nat z)).
  rewrite Z2Nat.id in Hall by lia.
  assert (Hin : In (Z.to_nat z) (seq 0 100)) by (apply in_seq; lia).
  apply Hall in Hin. cbv zeta in Hin.
  apply andb_true_iff in Hin. destruct Hin as [H1 H2].
  apply Nat.leb_le in H1, H2. lia.
Qed.

(** The display of a non-negative number of seconds is a minutes part of
    at least two characters, a colon, and a seconds part of exactly two;
    it is five characters long below one hundred minutes, and there is no
    hours field: 3725 seconds read 62:05. *)
Theorem formatTime_shape (seconds : Z) :
  0 <= seconds ->
  (exists mm ss,
     formatTime seconds = mm +:+ ":" +:+ ss
     /\ mm = padStart 2 "0"%char (pretty (seconds / 60))
     /\ ss = padStart 2 "0"%char (pretty (Z.rem seconds 60))
     /\ (2 <= String.length mm)%nat /\ String.length ss = 2%nat)
  /\ (seconds < 6000 -> String.length (formatTime seconds) = 5%nat)
  /\ formatTime 0 = "00:00" /\ formatTime 75 = "01:15"
  /\ formatTime 3725 = "62:05".
Proof.
  intros H0.
  assert (Hs : String.length
                 (padStart 2 "0"%char (pretty (Z.rem seconds 60))) = 2%nat).
  { rewrite padStart_length.
    pose proof (Z.rem_bound_pos seconds 60 H0 ltac:(lia)) as Hr.
    pose proof (pretty_below_hundred (Z.rem seconds 60) ltac:(lia)). lia. }
  split; [| split; [| repeat split; vm_compute; reflexivity]].
  - eexists. eexists. split; [reflexivity |].
    split; [reflexivity |]. split; [reflexivity |].
    split; [rewrite padStart_length; lia | exact Hs].
  - intros Hlt. unfold formatTime. cbv zeta.
    rewrite !string_length_app, Hs, padStart_length.
    assert (Hm : 0 <= seconds / 60 < 100).
    { split; [apply Z.div_pos; lia |].
      apply Z.div_lt_upper_bound; lia. }
    pose proof (pretty_below_hundred (seconds / 60) Hm). cbn. lia.
Qed.

Lemma formatTime_shape_witness :
  0 <= 754 /\ (754 < 6000 -> String.length (formatTime 754) = 5%nat).
Proof.
  assert (H : 0 <= 754) by lia.
  split; [exact H |].
  exact (proj1 (proj2 (formatTime_shape 754 H))).
Defined.

End ElapsedTimeDisplay.

(** * The code in binary64 arithmetic *)

(** ** Signs of rounded results *)
Section Binary64Signs.
Import Binary64.
Open Scope Z_scope.

Lemma digits2_pos_bounds (m : positive) :
  2 ^ (Zpos (digits2_pos m) - 1) <= Zpos m < 2 ^ Zpos (digits2_pos m).
Proof.
  assert (Hstep : forall d : positive,
            2 ^ (Zpos (Pos.succ d) - 1) = 2 * 2 ^ (Zpos d - 1)
            /\ 2 ^ Zpos (Pos.succ d) = 2 * 2 ^ Zpos d).
  { intros d. rewrite Pos2Z.inj_succ. split.
    - replace (Z.succ (Zpos d) - 1) with (Z.succ (Zpos d - 1)) by lia.
      apply Z.pow_succ_r. lia.
    - apply Z.pow_succ_r. lia. }
  induction m as [m IH | m IH |]; cbn [digits2_pos].
  - destruct (Hstep (digits2_pos m)) as [-> ->]. rewrite (Pos2Z.inj_xI m).
    clear Hstep. revert IH.
    generalize (2 ^ (Zpos (digits2_pos m) - 1)) (2 ^ Zpos (digits2_pos m)).
    intros a b IH. lia.
  - destruct (Hstep (digits2_pos m)) as [-> ->]. rewrite (Pos2Z.inj_xO m).
    clear Hstep. revert IH.
    generalize (2 ^ (Zpos (digits2_pos m) - 1)) (2 ^ Zpos (digits2_pos m)).
    intros a b IH. lia.
  - cbn. lia.
Qed.

Lemma canonical_digits (m : positive) (e : Z) :
  canonical_mantissa prec emax m e = true ->
  -1074 <= e /\ Zpos (digits2_pos m) <= 53 /\ (-1074 < e -> Zpos (digits2_pos m) = 53).
Proof.
  unfold canonical_mantissa, fexp, emin, prec, emax. intros H.
  apply Z.eqb_eq in H. lia.
Qed.

Lemma iter_xO (m d : positive) : Zpos (Pos.iter xO m d) = Zpos m * 2 ^ Zpos d.
Proof.
  induction d as [| d IH] using Pos.peano_ind.
  - cbn. lia.
  - rewrite Pos.iter_succ, Pos2Z.inj_xO, IH, Pos2Z.inj_succ, Z.pow_succ_r by lia. lia.
Qed.

Lemma shl_align_value (m : positive) (e e' : Z) :
  e' <= e -> Zpos (fst (shl_align m e e')) = Zpos m * 2 ^ (e - e').
Proof.
  intros H. unfold shl_align.
  destruct (e' - e) as [| p | p] eqn:E; cbn [fst].
  - replace (e - e') with 0 by lia. lia.
  - lia.
  - rewrite iter_xO. replace (e - e') with (Zpos p) by lia. reflexivity.
Qed.

(** exponent order decides the order of two canonical mantissas *)
Lemma canonical_lt (m1 m2 : positive) (e1 e2 : Z) :
  canonical_mantissa prec emax m1 e1 = true ->
  canonical_mantissa prec emax m2 e2 = true ->
  e1 < e2 -> Zpos m1 < Zpos m2 * 2 ^ (e2 - e1).
Proof.
  intros H1 H2 Hlt.
  apply canonical_digits in H1, H2.
  destruct H1 as (He1 & Hd1 & _), H2 as (_ & _ & Hd2).
  specialize (Hd2 ltac:(lia)).
  pose proof (digits2_pos_bounds m1) as [_ Hu].
  pose proof (digits2_pos_bounds m2) as [Hl _].
  rewrite Hd2 in Hl.
  assert (Zpos m1 < 2 ^ 53).
  { eapply Z.lt_le_trans; [exact Hu |]. apply Z.pow_le_mono_r; lia. }
  assert (2 <= 2 ^ (e2 - e1)).
  { change 2 with (2 ^ 1) at 1. apply Z.pow_le_mono_r; lia. }
  change (53 - 1) with 52 in Hl.
  assert (2 ^ 53 = 2 * 2 ^ 52) by reflexivity.
  nia.
Qed.

Lemma aligned_compare (m1 m2 : positive) (e1 e2 : Z) :
  canonical_mantissa prec emax m1 e1 = true ->
  canonical_mantissa prec emax m2 e2 = true ->
  Z.compare (Zpos (fst (shl_align m1 e1 (Z.min e1 e2))))
            (Zpos (fst (shl_align m2 e2 (Z.min e1 e2))))
  = match Z.compare e1 e2 with
    | Lt => Lt
    | Gt => Gt
    | Eq => Pos.compare_cont Eq m1 m2
    end.
Proof.
  intros H1 H2.
  rewrite !shl_align_value by lia.
  destruct (Z.compare_spec e1 e2) as [-> | Hlt | Hgt].
  - rewrite Z.min_id, Z.sub_diag. cbn [Z.pow]. rewrite !Z.mul_1_r. reflexivity.
  - rewrite Z.min_l by lia. rewrite Z.sub_diag. cbn [Z.pow]. rewrite Z.mul_1_r.
    apply Z.compare_lt_iff. apply canonical_lt; assumption.
  - rewrite Z.min_r by lia. rewrite Z.sub_diag. cbn [Z.pow]. rewrite Z.mul_1_r.
    apply Z.compare_gt_iff. apply canonical_lt; assumption.
Qed.

Lemma iter_pos_invariant {A} (P : A -> Prop) (f : A -> A) (p : positive) (x : A) :
  (forall y, P y -> P (f y)) -> P x -> P (SpecFloat.iter_pos f p x).
Proof.
  intros Hf. revert x. induction p as [p IH | p IH |]; intros x Hx; cbn [SpecFloat.iter_pos]; auto.
Qed.

Lemma shr_1_nonneg mrs : 0 <= shr_m mrs -> 0 <= shr_m (shr_1 mrs).
Proof.
  destruct mrs as [m r s]. cbn [shr_m]. intros H.
  destruct m as [| [p | p |] | p]; cbn; lia.
Qed.

Lemma shr_fexp_nonneg m e l :
  0 <= m -> 0 <= shr_m (fst (shr_fexp prec emax m e l)).
Proof.
  intros H. unfold shr_fexp, shr.
  assert (H0 : 0 <= shr_m (shr_record_of_loc m l)).
  { destruct l as [| []]; exact H. }
  destruct (fexp prec emax (Zdigits2 m + e) - e) as [| p | p]; cbn [fst]; try exact H0.
  apply (iter_pos_invariant (fun r => 0 <= shr_m r)); [apply shr_1_nonneg | exact H0].
Qed.

Lemma round_nearest_even_nonneg m l : 0 <= m -> 0 <= round_nearest_even m l.
Proof.
  intros H. unfold round_nearest_even.
  destruct l as [| []]; try lia. destruct (Z.even m); lia.
Qed.

Lemma binary_round_aux_signed s m e l :
  0 <= m -> signed s (binary_round_aux prec emax s m e l).
Proof.
  intros H. unfold binary_round_aux.
  pose proof (shr_fexp_nonneg m e l H) as H1.
  destruct (shr_fexp prec emax m e l) as [mrs' e'] eqn:E1. cbn [fst] in H1.
  pose proof (round_nearest_even_nonneg _ (loc_of_shr_record mrs') H1) as H2.
  pose proof (shr_fexp_nonneg _ e' loc_Exact H2) as H3.
  destruct (shr_fexp prec emax (round_nearest_even (shr_m mrs') (loc_of_shr_record mrs')) e' loc_Exact) as [mrs'' e''] eqn:E2.
  cbn [fst] in H3.
  destruct (shr_m mrs'') as [| p | p]; [reflexivity | | lia].
  destruct (e'' <=? emax - prec); reflexivity.
Qed.

Lemma binary_round_signed s m e : signed s (binary_round prec emax s m e).
Proof.
  unfold binary_round.
  destruct (shl_align m e (fexp prec emax (Zpos (digits2_pos m) + e))) as [mz ez].
  apply binary_round_aux_signed. lia.
Qed.

(** sign of a difference of two positive canonical doubles *)
Lemma sub_positive_signed (m1 m2 : positive) (e1 e2 : Z) :
  canonical_mantissa prec emax m1 e1 = true ->
  canonical_mantissa prec emax m2 e2 = true ->
  match SFcompare (S754_finite false m1 e1) (S754_finite false m2 e2) with
  | Some Gt => signed false (sub (S754_finite false m1 e1) (S754_finite false m2 e2))
  | Some Lt => signed true (sub (S754_finite false m1 e1) (S754_finite false m2 e2))
  | Some Eq => sub (S754_finite false m1 e1) (S754_finite false m2 e2) = S754_zero false
  | None => False
  end.
Proof.
  intros H1 H2. pose proof (aligned_compare m1 m2 e1 e2 H1 H2) as Hc.
  cbn [SFcompare]. unfold sub, SFsub. cbv zeta. cbn [cond_Zopp].
  set (a := Zpos (fst (shl_align m1 e1 (Z.min e1 e2)))) in *.
  set (b := Zpos (fst (shl_align m2 e2 (Z.min e1 e2)))) in *.
  rewrite <- Hc.
  destruct (Z.compare_spec a b) as [Heq | Hlt | Hgt].
  - replace (a - b) with 0 by lia. reflexivity.
  - destruct (a - b) as [| p | p] eqn:E; try lia.
    apply binary_round_signed.
  - destruct (a - b) as [| p | p] eqn:E; try lia.
    apply binary_round_signed.
Qed.

Lemma bounded_canonical m e :
  bounded prec emax m e = true -> canonical_mantissa prec emax m e = true.
Proof. unfold bounded. intros H. now apply andb_true_iff in H. Qed.

Lemma positive_double_inv x :
  positive_double x = true ->
  exists m e, x = S754_finite false m e
              /\ canonical_mantissa prec emax m e = true.
Proof.
  destruct x as [| | | [] m e]; cbn; try discriminate.
  intros H. exists m, e. split; [reflexivity | now apply bounded_canonical].
Qed.

Lemma mul_signed_l (m e : positive) (e' : Z) (y : binary64) s :
  signed s y -> signed s (mul (S754_finite false m e') y).
Proof.
  destruct y as [sy | sy | | sy my ey]; cbn [signed]; try contradiction;
    intros <-; unfold mul; cbn [SFmul xorb signed]; try reflexivity.
  apply binary_round_aux_signed. lia.
Qed.

Lemma mul_signed_r (x : binary64) (m : positive) (e : Z) :
  signed false x -> signed false (mul x (S754_finite false m e)).
Proof.
  destruct x as [sx | sx | | sx mx ex]; cbn [signed]; try contradiction;
    intros ->; unfold mul; cbn [SFmul xorb signed]; try reflexivity.
  apply binary_round_aux_signed. lia.
Qed.

Lemma add_signed (m : positive) (e : Z) (y : binary64) :
  signed false y -> signed false (add (S754_finite false m e) y).
Proof.
  destruct y as [sy | sy | | sy my ey]; cbn [signed]; try contradiction;
    intros ->; unfold add; cbn [SFadd signed]; try reflexivity.
  cbn [cond_Zopp].
  destruct (Zpos (fst (shl_align m e (Z.min e ey)))
            + Zpos (fst (shl_align my ey (Z.min e ey)))) as [| p | p] eqn:E;
    try lia.
  cbn [binary_normalize]. apply binary_round_signed.
Qed.

Lemma value_nonneg (x : binary64) : signed false x -> (0 <= value x)%Q.
Proof.
  destruct x as [sx | sx | | sx m e]; cbn [signed value]; try contradiction;
    intros ?; subst; try (apply Qle_refl).
  cbn [cond_Zopp]. destruct e as [| p | p].
  - unfold Qle. cbn. lia.
  - unfold Qle. cbn [inject_Z Qnum Qden]. 
    assert (0 < 2 ^ Zpos p) by (apply Z.pow_pos_nonneg; lia). nia.
  - unfold Qle. cbn. lia.
Qed.

(** [Math.round] of a finite double that is not negative is the whole
    number nearest to its value, a tie going away from zero. *)
Lemma Math_round_signed (x : binary64) :
  signed false x -> is_finite x = true ->
  Math_round x = of_Z (FareCalculator.round_half_away (value x)).
Proof.
  intros Hs Hf. pose proof (value_nonneg x Hs) as Hv.
  unfold FareCalculator.round_half_away. apply Qle_bool_iff in Hv. rewrite Hv.
  destruct x as [sx | sx | | sx m e]; cbn [signed is_finite] in *;
    try contradiction; try discriminate; subst.
  - reflexivity.
  - unfold Math_round.
    destruct (Qfloor (value (S754_finite false m e) + 0.5)); reflexivity.
Qed.

Lemma sub_of_le (d bD : binary64) :
  nonnegative_double d = true -> positive_double bD = true ->
  leb d bD = true ->
  Math_max (literal 0) (sub d bD) = S754_zero false.
Proof.
  intros Hd Hb Hle. apply positive_double_inv in Hb.
  destruct Hb as (m2 & e2 & -> & H2).
  destruct d as [sd | | | [] m1 e1]; cbn in Hd; try discriminate.
  - reflexivity.
  - apply bounded_canonical in Hd.
    pose proof (sub_positive_signed m1 m2 e1 e2 Hd H2) as Hs.
    unfold leb, SFleb in Hle.
    destruct (SFcompare (S754_finite false m1 e1) (S754_finite false m2 e2))
      as [[] |]; try discriminate.
    + now rewrite Hs.
    + destruct (sub (S754_finite false m1 e1) (S754_finite false m2 e2))
        as [s | s | | s m e]; cbn [signed] in Hs; try contradiction; subst;
        reflexivity.
Qed.

Lemma sub_of_gt (d bD : binary64) :
  nonnegative_double d = true -> positive_double bD = true ->
  leb d bD = false ->
  signed false (sub d bD)
  /\ Math_max (literal 0) (sub d bD) = sub d bD.
Proof.
  intros Hd Hb Hle. apply positive_double_inv in Hb.
  destruct Hb as (m2 & e2 & -> & H2).
  destruct d as [sd | | | [] m1 e1]; cbn in Hd; try discriminate.
  apply bounded_canonical in Hd.
  {
    pose proof (sub_positive_signed m1 m2 e1 e2 Hd H2) as Hs.
    unfold leb, SFleb in Hle.
    destruct (SFcompare (S754_finite false m1 e1) (S754_finite false m2 e2))
      as [[] |]; try discriminate; try contradiction.
    split; [exact Hs |].
    destruct (sub (S754_finite false m1 e1) (S754_finite false m2 e2))
      as [s | s | | s m e]; cbn [signed] in Hs; try contradiction; subst;
      reflexivity. }
Qed.

(** The binary64 subtotal for a distance that is not negative and a tariff
    with positive fields. *)
Lemma subtotal_cases (d : binary64) (t : FareSettings) :
  nonnegative_double d = true -> positive_fields t ->
  signed false (computeFare_unrounded d t)
  /\ (leb d (baseDistance t) = true ->
      computeFare_unrounded d t = baseFare t)
  /\ (leb d (baseDistance t) = false ->
      computeFare_unrounded d t =
      add (baseFare t) (mul (ratePerKm t) (sub d (baseDistance t)))).
Proof.
  intros Hd (Hf & Hb & Hr). unfold computeFare_unrounded.
  destruct (positive_double_inv _ Hf) as (mf & ef & Ef & _).
  destruct (positive_double_inv _ Hr) as (mr & er & Er & _).
  destruct (leb d (baseDistance t)) eqn:Hle.
  - rewrite (sub_of_le d (baseDistance t) Hd Hb Hle), Ef, Er.
    repeat split; try reflexivity. discriminate.
  - destruct (sub_of_gt d (baseDistance t) Hd Hb Hle) as [Hs ->].
    rewrite Ef, Er. repeat split; try reflexivity; try discriminate.
    apply add_signed. now apply mul_signed_l.
Qed.

End Binary64Signs.

(** ** The fare engine in binary64 *)
Section Binary64FareEngine.
Import Binary64.
Open Scope Z_scope.

(** The engine on a finite distance that is not negative: one
    [Math.round] of the binary64 subtotal, multiplied by 1.5 at night. *)
Lemma fare_of_nonnegative
    (st : State) (d : binary64) (n : bool) (t : FareSettings) :
  nonnegative_double d = true -> positive_fields t ->
  _calculateFareInternal st d n (Some t)
  = Math_round (if n then mul (computeFare_unrounded d t) (literal 1.5)
                else computeFare_unrounded d t)
  /\ signed false (if n then mul (computeFare_unrounded d t) (literal 1.5)
                   else computeFare_unrounded d t).
Proof.
  intros Hd Hpos.
  destruct (subtotal_cases d t Hd Hpos) as (Hs & Hle & Hgt).
  assert (H15 : add (literal 1) NIGHT_SURCHARGE = literal 1.5)
    by (vm_compute; reflexivity).
  split.
  - unfold _calculateFareInternal. cbv zeta. rewrite H15.
    destruct (leb d (baseDistance t)) eqn:E;
      [rewrite Hle | rewrite Hgt]; reflexivity.
  - destruct n; [| exact Hs].
    change (literal 1.5) with (S754_finite false 6755399441055744 (-52)).
    now apply mul_signed_r.
Qed.

Lemma Math_round_not_nan (x : binary64) :
  is_nan x = false -> is_nan (Math_round x) = false.
Proof.
  destruct x as [s | s | | s m e]; try reflexivity; [discriminate |].
  intros _. unfold Math_round.
  destruct (Qfloor (value (S754_finite s m e) + 0.5)) as [| p | p];
    [reflexivity | |]; unfold of_Z; cbn [binary_normalize].
  - pose proof (binary_round_signed false p 0) as H.
    now destruct (binary_round prec emax false p 0).
  - pose proof (binary_round_signed true p 0) as H.
    now destruct (binary_round prec emax true p 0).
Qed.

(** C1, as stated, fails on the code: with the default tariff by day the
    double nearest to 2.4 km is charged 44, whereas the exact subtotal at
    that double, 43.4999..., rounds to 43; and the literal 16.4 km is
    charged 253, whereas the exact subtotal 253.5 rounds to 254. *)
Lemma binary64_day_fare_differs_from_exact_rounding :
  _calculateFareInternal initial (literal 2.4) false (Some DEFAULT_SETTINGS)
  = of_Z 44
  /\ (value (baseFare DEFAULT_SETTINGS) == 30
      /\ value (baseDistance DEFAULT_SETTINGS) == 1.5
      /\ value (ratePerKm DEFAULT_SETTINGS) == 15)%Q
  /\ FareCalculator.round_half_away
       (FareCalculator.computeFare_unrounded (value (literal 2.4))
          FareCalculator.DEFAULT_SETTINGS) = 43
  /\ of_Z 44 <> of_Z 43
  /\ _calculateFareInternal initial (literal 16.4) false
       (Some DEFAULT_SETTINGS) = of_Z 253
  /\ FareCalculator.round_half_away
       (FareCalculator.computeFare_unrounded 16.4
          FareCalculator.DEFAULT_SETTINGS) = 254.
Proof.
  repeat split; try (vm_compute; reflexivity).
  vm_compute. discriminate.
Qed.

(** C1, amended: by day, for a finite double [d >= 0] and a tariff whose
    fields are finite doubles above zero, the fare is [Math.round] of the
    subtotal [baseFare + ratePerKm * max(0, d - baseDistance)] evaluated in
    binary64, every operation rounded to the nearest double: the subtotal is
    exactly the base fare up to the base distance, and the rounded sum of
    the base fare and the rounded product of the rate and the rounded excess
    beyond it; when it has not overflowed, it is rounded once to the nearest
    whole number, ties away from zero; the default tariff at 2 km gives
    38. *)
Theorem day_fare_rounds_binary64_subtotal
    (st : State) (d : binary64) (t : FareSettings) :
  nonnegative_double d = true -> positive_fields t ->
  _calculateFareInternal st d false (Some t)
  = Math_round (computeFare_unrounded d t)
  /\ (leb d (baseDistance t) = true ->
      computeFare_unrounded d t = baseFare t)
  /\ (leb d (baseDistance t) = false ->
      computeFare_unrounded d t =
      add (baseFare t) (mul (ratePerKm t) (sub d (baseDistance t))))
  /\ (is_finite (computeFare_unrounded d t) = true ->
      Math_round (computeFare_unrounded d t)
      = of_Z (FareCalculator.round_half_away (value (computeFare_unrounded d t))))
  /\ _calculateFareInternal st (literal 2) false (Some DEFAULT_SETTINGS)
     = of_Z 38.
Proof.
  intros Hd Hpos.
  destruct (subtotal_cases d t Hd Hpos) as (Hs & Hle & Hgt).
  split; [| split; [exact Hle | split; [exact Hgt | split]]].
  - unfold _calculateFareInternal. cbv zeta.
    destruct (leb d (baseDistance t)) eqn:E.
    + now rewrite Hle.
    + now rewrite Hgt.
  - intros Hf. now apply Math_round_signed.
  - vm_compute. reflexivity.
Qed.

Lemma day_fare_rounds_binary64_subtotal_witness :
  nonnegative_double (literal 2.4) = true
  /\ positive_fields DEFAULT_SETTINGS
  /\ _calculateFareInternal initial (literal 2.4) false
       (Some DEFAULT_SETTINGS)
     = Math_round (computeFare_unrounded (literal 2.4) DEFAULT_SETTINGS).
Proof.
  assert (Hd : nonnegative_double (literal 2.4) = true)
    by (vm_compute; reflexivity).
  assert (Hp : positive_fields DEFAULT_SETTINGS)
    by (repeat split; vm_compute; reflexivity).
  split; [exact Hd |]. split; [exact Hp |].
  exact (proj1 (day_fare_rounds_binary64_subtotal
                  initial (literal 2.4) DEFAULT_SETTINGS Hd Hp)).
Defined.

(** C4, as stated, fails on the code: with the default tariff by night the
    double nearest to 1.7 km is charged 50, whereas 1.5 times the exact
    subtotal at that double, 49.4999..., rounds to 49; and the literal
    33.3 km is charged 760, whereas 1.5 times the exact subtotal, 760.5,
    rounds to 761. *)
Lemma binary64_night_fare_differs_from_exact_rounding :
  _calculateFareInternal initial (literal 1.7) true (Some DEFAULT_SETTINGS)
  = of_Z 50
  /\ FareCalculator.round_half_away
       (1.5 * FareCalculator.computeFare_unrounded (value (literal 1.7))
                FareCalculator.DEFAULT_SETTINGS)%Q = 49
  /\ of_Z 50 <> of_Z 49
  /\ _calculateFareInternal initial (literal 33.3) true
       (Some DEFAULT_SETTINGS) = of_Z 760
  /\ FareCalculator.round_half_away
       (1.5 * FareCalculator.computeFare_unrounded 33.3
                FareCalculator.DEFAULT_SETTINGS)%Q = 761.
Proof.
  repeat split; try (vm_compute; reflexivity).
  vm_compute. discriminate.
Qed.

(** C4, amended: by night, for a finite double [d >= 0] and a tariff whose
    fields are finite doubles above zero, the fare is [Math.round] of the
    binary64 product of the day subtotal, itself evaluated in binary64, and
    [1 + 0.5 = 1.5]: the surcharge multiplies the whole subtotal before the
    single rounding to a whole number, ties away from zero, which takes
    place when the product has not overflowed; it applies at distance 0,
    where the default tariff gives 45, and the default tariff at 5 km gives
    124. *)
Theorem night_fare_rounds_binary64_surcharged_subtotal
    (st : State) (d : binary64) (t : FareSettings) :
  nonnegative_double d = true -> positive_fields t ->
  let surcharged := mul (computeFare_unrounded d t) (literal 1.5) in
  _calculateFareInternal st d true (Some t) = Math_round surcharged
  /\ add (literal 1) NIGHT_SURCHARGE = literal 1.5
  /\ (is_finite surcharged = true ->
      Math_round surcharged = of_Z (FareCalculator.round_half_away (value surcharged)))
  /\ _calculateFareInternal st (literal 0) true (Some DEFAULT_SETTINGS)
     = of_Z 45
  /\ _calculateFareInternal st (literal 5) true (Some DEFAULT_SETTINGS)
     = of_Z 124.
Proof.
  intros Hd Hpos. cbv zeta.
  destruct (subtotal_cases d t Hd Hpos) as (Hs & Hle & Hgt).
  assert (H15 : add (literal 1) NIGHT_SURCHARGE = literal 1.5)
    by (vm_compute; reflexivity).
  split; [| split; [exact H15 | split; [| split; vm_compute; reflexivity]]].
  - unfold _calculateFareInternal. cbv zeta. rewrite H15.
    destruct (leb d (baseDistance t)) eqn:E.
    + now rewrite Hle.
    + now rewrite Hgt.
  - intros Hf. apply Math_round_signed; [| exact Hf].
    change (literal 1.5) with (S754_finite false 6755399441055744 (-52)).
    now apply mul_signed_r.
Qed.

Lemma night_fare_rounds_binary64_surcharged_subtotal_witness :
  nonnegative_double (literal 0) = true
  /\ positive_fields DEFAULT_SETTINGS
  /\ _calculateFareInternal initial (literal 0) true (Some DEFAULT_SETTINGS)
     = Math_round
         (mul (computeFare_unrounded (literal 0) DEFAULT_SETTINGS)
              (literal 1.5)).
Proof.
  assert (Hd : nonnegative_double (literal 0) = true)
    by (vm_compute; reflexivity).
  assert (Hp : positive_fields DEFAULT_SETTINGS)
    by (repeat split; vm_compute; reflexivity).
  split; [exact Hd |]. split; [exact Hp |].
  exact (proj1 (night_fare_rounds_binary64_surcharged_subtotal
                  initial (literal 0) DEFAULT_SETTINGS Hd Hp)).
Defined.

End Binary64FareEngine.

(** ** The settings editor in binary64 *)
Section Binary64Editor.
Import Binary64.
Open Scope Z_scope.

Lemma leb_zero (x : binary64) :
  is_nan x = false -> leb x (literal 0) = negb (ltb (literal 0) x).
Proof.
  intros H. destruct x as [[] | [] | | [] m e]; try discriminate H;
    reflexivity.
Qed.

Lemma SFcompare_antisym (x y : binary64) :
  SFcompare y x = match SFcompare x y with
                  | Some c => Some (CompOpp c)
                  | None => None
                  end.
Proof.
  assert (Hp : forall mx my,
            Pos.compare_cont Eq my mx = CompOpp (Pos.compare_cont Eq mx my)).
  { intros. rewrite Pos.compare_cont_antisym. reflexivity. }
  destruct x as [[] | [] | | [] mx ex], y as [[] | [] | | [] my ey];
    cbn [SFcompare CompOpp]; try reflexivity;
    rewrite (Z.compare_antisym ex ey);
    destruct (ex ?= ey); cbn [CompOpp]; try reflexivity;
    rewrite Hp; destruct (Pos.compare_cont Eq mx my); reflexivity.
Qed.

Lemma gtb_leb (x y : binary64) :
  is_nan x = false -> is_nan y = false -> gtb x y = negb (leb x y).
Proof.
  intros Hx Hy. unfold gtb, leb, SFltb, SFleb.
  rewrite (SFcompare_antisym x y).
  destruct (SFcompare x y) as [[] |] eqn:E; try reflexivity.
  destruct x as [[] | [] | | [] mx ex], y as [[] | [] | | [] my ey];
    discriminate.
Qed.

Lemma saveSettings_outcome (ok : bool) (storage : AsyncStorage) (st : Editor) :
  no_NaN_fields (tempSettings st) ->
  (acceptable (tempSettings st) ->
   saveSettings ok storage st =
   if ok
   then (<["fareSettings" := Parsed (JSON_stringify (tempSettings st))]>
           storage,
         {| settings := tempSettings st; tempSettings := tempSettings st |},
         SettingsSaved)
   else (storage, st, FailedToSaveSettings))
  /\ (~ acceptable (tempSettings st) ->
      saveSettings ok storage st = (storage, st, AllValuesMustBePositive)
      \/ saveSettings ok storage st = (storage, st, BaseDistanceTooLarge)).
Proof.
  intros (Nf & Nd & Nr). unfold saveSettings, acceptable. cbv zeta.
  rewrite (leb_zero _ Nf), (leb_zero _ Nd), (leb_zero _ Nr).
  rewrite (gtb_leb _ (literal 10) Nd eq_refl).
  destruct (ltb (literal 0) (baseFare (tempSettings st)));
    [| split; [intros (? & _); discriminate | now left]].
  destruct (ltb (literal 0) (baseDistance (tempSettings st)));
    [| split; [intros (_ & ? & _); discriminate | now left]].
  destruct (ltb (literal 0) (ratePerKm (tempSettings st)));
    [| split; [intros (_ & _ & ? & _); discriminate | now left]].
  destruct (leb (baseDistance (tempSettings st)) (literal 10));
    [| split; [intros (_ & _ & _ & ?); discriminate | now right]].
  cbn [negb orb]. split; [reflexivity |].
  intros H. exfalso. apply H. repeat split.
Qed.

Lemma read_stringify (t : FareSettings) :
  finite_fields t -> acceptable t ->
  read_settings (JSON_stringify t) = t.
Proof.
  intros (Ff & Fd & Fr) (Pf & Pd & Pr & _).
  destruct t as [f d r]. cbn in *.
  unfold read_settings, JSON_stringify. cbn.
  destruct f as [[] | [] | | sf mf ef], d as [[] | [] | | sd md ed],
           r as [[] | [] | | sr mr er]; try discriminate; reflexivity.
Qed.




Lemma or_zero_not_nan (x : binary64) : is_nan (or_zero x) = false.
Proof. now destruct x. Qed.

Lemma finite_not_nan (x : binary64) : is_finite x = true -> is_nan x = false.
Proof. now destruct x. Qed.

Lemma finite_fields_no_NaN (t : FareSettings) :
  finite_fields t -> no_NaN_fields t.
Proof.
  intros (? & ? & ?). repeat split; now apply finite_not_nan.
Qed.

Lemma JSON_number_ok (x : binary64) : json_field_ok (JSON_number x).
Proof. now destruct x. Qed.

Lemma ToNumber_not_nan (v : option binary64) :
  json_field_ok v -> is_nan (ToNumber v) = false.
Proof.
  destruct v as [x |]; cbn; [apply finite_not_nan | reflexivity].
Qed.

Lemma store_ok_insert (storage : AsyncStorage) (t : FareSettings) :
  store_ok (<["fareSettings" := Parsed (JSON_stringify t)]> storage).
Proof.
  intros s. unfold getItem. rewrite lookup_insert_eq. intros [= <-].
  repeat split; apply JSON_number_ok.
Qed.

(** No field of the edited tariff is ever [NaN]: typing turns [NaN] into
    zero, and what is loaded comes from JSON text, which holds finite
    numbers and [null] only; the store keeps holding such text whatever is
    saved. *)
Theorem editor_never_holds_NaN
    (edits : list Edit) (storage : AsyncStorage) (st : Editor) :
  store_ok storage -> no_NaN_fields (tempSettings st) ->
  store_ok (fst (fold_left edit edits (storage, st)))
  /\ no_NaN_fields (tempSettings (snd (fold_left edit edits (storage, st)))).
Proof.
  revert storage st. induction edits as [| e edits IH];
    intros storage st Hs Hn; [split; assumption |].
  cbn [fold_left].
  destruct (edit (storage, st) e) as [storage' st'] eqn:E.
  apply IH; destruct e as [| x | x | x | ok | ok]; cbn [edit fst snd] in E.
  - now injection E as <- _.
  - now injection E as <- _.
  - now injection E as <- _.
  - now injection E as <- _.
  - unfold saveSettings in E. cbv zeta in E.
    repeat match type of E with
    | context [if ?c then _ else _] => destruct c
    end; cbn [fst] in E; injection E as <- _;
      try assumption; apply store_ok_insert.
  - unfold performReset in E. destruct ok; injection E as <- _;
      [apply store_ok_insert | assumption].
  - injection E as _ <-. unfold loadSettings.
    destruct (getItem "fareSettings" storage) as [[parsed |] |] eqn:G;
      try assumption.
    destruct (Hs parsed G) as (? & ? & ?).
    repeat split; now apply ToNumber_not_nan.
  - injection E as _ <-. destruct Hn as (? & ? & ?).
    repeat split; try assumption. apply or_zero_not_nan.
  - injection E as _ <-. destruct Hn as (? & ? & ?).
    repeat split; try assumption. apply or_zero_not_nan.
  - injection E as _ <-. destruct Hn as (? & ? & ?).
    repeat split; try assumption. apply or_zero_not_nan.
  - unfold saveSettings in E. cbv zeta in E.
    repeat match type of E with
    | context [if ?c then _ else _] => destruct c
    end; cbn [fst] in E; injection E as _ <-; assumption.
  - unfold performReset in E. destruct ok; injection E as _ <-;
      [repeat split | assumption].
Qed.

Lemma editor_never_holds_NaN_witness :
  store_ok ∅ /\ no_NaN_fields (tempSettings mounted)
  /\ no_NaN_fields
       (tempSettings
          (snd (fold_left edit
                  [TypeBaseFare S754_nan; Save true; Load] (∅, mounted)))).
Proof.
  assert (Hs : store_ok ∅) by (intros s H; discriminate H).
  assert (Hn : no_NaN_fields (tempSettings mounted)) by (repeat split).
  split; [exact Hs |]. split; [exact Hn |].
  exact (proj2 (editor_never_holds_NaN
                  [TypeBaseFare S754_nan; Save true; Load] ∅ mounted Hs Hn)).
Defined.

End Binary64Editor.

(** ** Editor and meter together, in binary64 *)
Section Binary64Flows.
Import Binary64.
Open Scope Z_scope.

Lemma or_zero_finite_fields (x : binary64) (t : FareSettings) :
  is_finite (or_zero x) = true -> finite_fields t ->
  finite_fields {| baseFare := or_zero x; baseDistance := baseDistance t;
                   ratePerKm := ratePerKm t |}
  /\ finite_fields {| baseFare := baseFare t; baseDistance := or_zero x;
                      ratePerKm := ratePerKm t |}
  /\ finite_fields {| baseFare := baseFare t; baseDistance := baseDistance t;
                      ratePerKm := or_zero x |}.
Proof.
  intros Hx (? & ? & ?). repeat split; assumption.
Qed.

Lemma edit_sound (w : AsyncStorage * Editor) (e : Edit) :
  sound w -> finite_edit e = true -> sound (edit w e).
Proof.
  destruct w as [storage st]. unfold sound. cbn [fst snd].
  intros (Ha & Hf & Ht) He.
  assert (Hdefault : acceptable DEFAULT_SETTINGS
                     /\ finite_fields DEFAULT_SETTINGS).
  { split; repeat split. }
  destruct e as [| x | x | x | ok | ok]; cbn [edit fst snd finite_edit] in *.
  - split; [exact Ha |]. split; [exact Hf |].
    unfold loadSettings. unfold loadFareSettings in Hf.
    destruct (getItem "fareSettings" storage) as [[parsed |] |];
      cbn [tempSettings]; assumption.
  - split; [exact Ha |]. split; [exact Hf |].
    apply (or_zero_finite_fields x (tempSettings st) He Ht).
  - split; [exact Ha |]. split; [exact Hf |].
    apply (or_zero_finite_fields x (tempSettings st) He Ht).
  - split; [exact Ha |]. split; [exact Hf |].
    apply (or_zero_finite_fields x (tempSettings st) He Ht).
  - pose proof (finite_fields_no_NaN _ Ht) as Hn.
    destruct (saveSettings_outcome ok storage st Hn) as [Hyes Hno].
    assert (Hdec : acceptable (tempSettings st)
                   \/ ~ acceptable (tempSettings st)).
    { unfold acceptable.
      destruct (ltb (literal 0) (baseFare (tempSettings st)));
        [| right; intros (? & _); discriminate].
      destruct (ltb (literal 0) (baseDistance (tempSettings st)));
        [| right; intros (_ & ? & _); discriminate].
      destruct (ltb (literal 0) (ratePerKm (tempSettings st)));
        [| right; intros (_ & _ & ? & _); discriminate].
      destruct (leb (baseDistance (tempSettings st)) (literal 10));
        [left; repeat split
        | right; intros (_ & _ & _ & ?); discriminate]. }
    destruct Hdec as [Hacc | Hna].
    + rewrite (Hyes Hacc). destruct ok; cbn [fst snd tempSettings].
      * unfold loadFareSettings, getItem. rewrite lookup_insert_eq.
        rewrite (read_stringify _ Ht Hacc). auto.
      * auto.
    + destruct (Hno Hna) as [E | E]; rewrite E; cbn [fst snd]; auto.
  - unfold performReset. destruct ok; cbn [fst snd tempSettings].
    + unfold loadFareSettings, getItem. rewrite lookup_insert_eq.
      destruct Hdefault as [Hda Hdf].
      rewrite (read_stringify _ Hdf Hda). auto.
    + auto.
Qed.

(** Validation on save is an invariant of the store as long as the typed
    values are finite: when the tariff that loads from the store passes the
    save checks with finite fields, as the default does for a store without
    the key, so does the tariff that loads after any sequence of loads,
    edits to finite values, saves and resets, whether the writes go through
    or not.  It is not one otherwise: typing [Infinity] as base fare and
    saving is accepted, and the tariff that loads afterwards has a base
    fare of zero. *)
Theorem finite_edits_keep_store_acceptable
    (edits : list Edit) (storage : AsyncStorage) (st : Editor) :
  acceptable (loadFareSettings storage) ->
  finite_fields (loadFareSettings storage) ->
  finite_fields (tempSettings st) ->
  forallb finite_edit edits = true ->
  acceptable (loadFareSettings (fst (fold_left edit edits (storage, st))))
  /\ finite_fields
       (loadFareSettings (fst (fold_left edit edits (storage, st))))
  /\ (let w := fold_left edit [TypeBaseFare (S754_infinity false); Save true]
                 (∅, mounted) in
      baseFare (loadFareSettings (fst w)) = literal 0
      /\ ~ acceptable (loadFareSettings (fst w))).
Proof.
  intros Ha Hf Ht Hall.
  assert (Hs : sound (fold_left edit edits (storage, st))).
  { assert (H0 : sound (storage, st))
      by (split; [exact Ha | split; [exact Hf | exact Ht]]).
    revert H0 Hall. generalize (storage, st).
    induction edits as [| e edits IH]; intros w H0 Hall; [exact H0 |].
    cbn [forallb] in Hall. apply andb_true_iff in Hall.
    destruct Hall as [He Hrest]. cbn [fold_left].
    apply IH; [now apply edit_sound | exact Hrest]. }
  destruct Hs as (H1 & H2 & _).
  split; [exact H1 |]. split; [exact H2 |].
  cbv zeta. split; [vm_compute; reflexivity |].
  intros (H & _). vm_compute in H. discriminate H.
Qed.

Lemma finite_edits_keep_store_acceptable_witness :
  acceptable (loadFareSettings ∅) /\ finite_fields (loadFareSettings ∅)
  /\ finite_fields (tempSettings mounted)
  /\ forallb finite_edit
       [TypeBaseFare (literal 40); Save true; TypeRatePerKm S754_nan;
        Save true; TypeBaseDistance (literal 11); Save false] = true
  /\ acceptable
       (loadFareSettings
          (fst (fold_left edit
                  [TypeBaseFare (literal 40); Save true;
                   TypeRatePerKm S754_nan; Save true;
                   TypeBaseDistance (literal 11); Save false]
                  (∅, mounted)))).
Proof.
  assert (Ha : acceptable (loadFareSettings ∅)) by (repeat split).
  assert (Hf : finite_fields (loadFareSettings ∅)) by (repeat split).
  assert (Ht : finite_fields (tempSettings mounted)) by (repeat split).
  assert (Hall : forallb finite_edit
            [TypeBaseFare (literal 40); Save true; TypeRatePerKm S754_nan;
             Save true; TypeBaseDistance (literal 11); Save false] = true)
    by (vm_compute; reflexivity).
  split; [exact Ha |]. split; [exact Hf |]. split; [exact Ht |].
  split; [exact Hall |].
  exact (proj1 (finite_edits_keep_store_acceptable _ ∅ mounted
                  Ha Hf Ht Hall)).
Defined.

(** A tariff with finite fields that is saved in mid-session is the one the
    next distance update charges by, the tariff being read again on every
    update; a save that is refused, or whose write fails, leaves the next
    update as it would have been. *)
Theorem next_update_uses_saved_tariff
    (ok : bool) (storage : AsyncStorage) (st : Editor)
    (now : FareCalculator.Date) (d : binary64) (m : State) :
  no_NaN_fields (tempSettings st) ->
  let storage' := fst (fst (saveSettings ok storage st)) in
  (acceptable (tempSettings st) -> ok = true ->
   finite_fields (tempSettings st) ->
   fare (updateDistance storage' now d m) =
     _calculateFareInternal m d (FareCalculator.isNightTime now)
       (Some (tempSettings st))
   /\ fareSettings (updateDistance storage' now d m) = tempSettings st)
  /\ (~ acceptable (tempSettings st) \/ ok = false ->
      updateDistance storage' now d m = updateDistance storage now d m).
Proof.
  intros Hn. cbv zeta.
  destruct (saveSettings_outcome ok storage st Hn) as [Hyes Hno].
  split.
  - intros Ha -> Hf. rewrite (Hyes Ha). cbn [fst].
    unfold updateDistance. cbn [fare fareSettings].
    unfold loadFareSettings, getItem. rewrite lookup_insert_eq.
    rewrite (read_stringify _ Hf Ha). auto.
  - assert (Hdec : acceptable (tempSettings st)
                   \/ ~ acceptable (tempSettings st)).
    { unfold acceptable.
      destruct (ltb (literal 0) (baseFare (tempSettings st)));
        [| right; intros (? & _); discriminate].
      destruct (ltb (literal 0) (baseDistance (tempSettings st)));
        [| right; intros (_ & ? & _); discriminate].
      destruct (ltb (literal 0) (ratePerKm (tempSettings st)));
        [| right; intros (_ & _ & ? & _); discriminate].
      destruct (leb (baseDistance (tempSettings st)) (literal 10));
        [left; repeat split
        | right; intros (_ & _ & _ & ?); discriminate]. }
    intros [Hna | ->].
    + destruct (Hno Hna) as [E | E]; now rewrite E.
    + destruct Hdec as [Ha | Hna].
      * now rewrite (Hyes Ha).
      * destruct (Hno Hna) as [E | E]; now rewrite E.
Qed.

Lemma next_update_uses_saved_tariff_witness :
  let st := updateRatePerKm (literal 18) mounted in
  no_NaN_fields (tempSettings st)
  /\ fareSettings
       (updateDistance (fst (fst (saveSettings true ∅ st))) 0 (literal 5)
          initial)
     = tempSettings st.
Proof.
  cbv zeta.
  assert (Hn : no_NaN_fields
                 (tempSettings (updateRatePerKm (literal 18) mounted)))
    by (repeat split).
  split; [exact Hn |].
  refine (proj2 (proj1 (next_update_uses_saved_tariff true ∅
            (updateRatePerKm (literal 18) mounted) 0 (literal 5) initial Hn)
            _ eq_refl _)); repeat split.
Defined.

(** With a tariff of finite fields above zero in the store, manual entry
    never leaves [NaN] in the distance or the fare cell, whatever the text
    parses to: text that does not parse, or parses to a zero, is taken as
    distance 0, and an entry of [Infinity] is charged [Infinity].  The fare
    shown is the one-shot estimate for the same store, distance and hour. *)
Theorem manual_entry_never_shows_NaN
    (storage : AsyncStorage) (now : FareCalculator.Date)
    (parsed : binary64) (st : State) :
  valid_binary prec emax parsed = true ->
  positive_fields (loadFareSettings storage) ->
  let st' := handleManualDistanceChange storage now parsed st in
  is_nan (distance st') = false
  /\ is_nan (fare st') = false
  /\ (is_nan parsed = true \/ (exists s, parsed = S754_zero s) ->
      distance st' = literal 0)
  /\ fare st' = calculateFareForDistance storage st (distance st')
                  (FareCalculator.isNightTime now)
  /\ fare (handleManualDistanceChange ∅ now (S754_infinity false) st)
     = S754_infinity false.
Proof.
  intros Hv Hpos. cbv zeta.
  unfold handleManualDistanceChange, updateDistance. cbn [distance fare].
  split; [apply or_zero_not_nan |].
  split; [| split; [| split; [reflexivity |]]].
  - apply Math_round_not_nan.
    set (t := loadFareSettings storage) in *.
    set (n := FareCalculator.isNightTime now). clearbody n.
    destruct Hpos as (Hf & Hb & Hr).
    destruct (nonnegative_double (or_zero parsed)) eqn:Hd.
    + destruct (fare_of_nonnegative st (or_zero parsed) n t Hd
                  (conj Hf (conj Hb Hr))) as [_ Hs].
      assert (E : (let currentSettings := t in
                   let fare :=
                     if leb (or_zero parsed) (baseDistance currentSettings)
                     then baseFare currentSettings
                     else add (baseFare currentSettings)
                            (mul (ratePerKm currentSettings)
                               (sub (or_zero parsed)
                                  (baseDistance currentSettings))) in
                   if n then mul fare (add (literal 1) NIGHT_SURCHARGE)
                   else fare)
                  = (if n then mul (computeFare_unrounded (or_zero parsed) t)
                                 (literal 1.5)
                     else computeFare_unrounded (or_zero parsed) t)).
      { cbv zeta.
        destruct (subtotal_cases (or_zero parsed) t Hd
                    (conj Hf (conj Hb Hr))) as (_ & Hle & Hgt).
        change (add (literal 1) NIGHT_SURCHARGE) with (literal 1.5).
        destruct (leb (or_zero parsed) (baseDistance t)) eqn:El;
          [rewrite Hle | rewrite Hgt]; reflexivity. }
      cbv zeta in E. rewrite E.
      now destruct (if n then _ else _).
    + destruct (positive_double_inv _ Hf) as (mf & ef & Ef & _).
      destruct (positive_double_inv _ Hb) as (mb & eb & Eb & _).
      destruct (positive_double_inv _ Hr) as (mr & er & Er & _).
      rewrite Ef, Eb, Er.
      change (add (literal 1) NIGHT_SURCHARGE)
        with (S754_finite false 6755399441055744 (-52)).
      destruct parsed as [s | [] | | [] m e]; cbn in Hd, Hv;
        try discriminate; try congruence; cbn [or_zero leb SFleb SFcompare].
      * destruct n; [| reflexivity].
        pose proof (mul_signed_r (S754_finite false mf ef)
                      6755399441055744 (-52) eq_refl) as H.
        now destruct (mul _ _).
      * destruct n; reflexivity.
      * destruct n; [| reflexivity].
        pose proof (mul_signed_r (S754_finite false mf ef)
                      6755399441055744 (-52) eq_refl) as H.
        now destruct (mul _ _).
  - intros [Hnan | (s & ->)]; [| reflexivity].
    destruct parsed; try discriminate; reflexivity.
  - unfold updateDistance, or_zero. cbn [fare is_nan orb leb SFleb SFcompare].
    destruct (FareCalculator.isNightTime now); vm_compute; reflexivity.
Qed.

Lemma manual_entry_never_shows_NaN_witness :
  valid_binary prec emax S754_nan = true
  /\ positive_fields (loadFareSettings ∅)
  /\ is_nan (fare (handleManualDistanceChange ∅ 0 S754_nan initial)) = false.
Proof.
  assert (Hv : valid_binary prec emax S754_nan = true) by reflexivity.
  assert (Hp : positive_fields (loadFareSettings ∅))
    by (repeat split; vm_compute; reflexivity).
  split; [exact Hv |]. split; [exact Hp |].
  exact (proj1 (proj2 (manual_entry_never_shows_NaN ∅ 0 S754_nan initial
                         Hv Hp))).
Defined.

End Binary64Flows.
